(** * DropboxCloud: OAuth2 (PKCE) token lifecycle and chunked upload

    A shallow embedding of the [DropboxCloud] class.  The class talks to
    the Dropbox SDK, to the browser (popup, cross-window messages, timers,
    session storage, page location) and to an injected token storage.  All
    of these are outside the class: their answers are gathered in an
    environment [Env], and every effect the class has on them is appended
    to a trace.  Asynchronous methods become computations in a state monad
    whose outcome is a returned value, a thrown reason (a rejected
    promise) or a promise that never settles. *)

From Stdlib Require Import ZArith String Ascii List Bool Lia Sorted.
From stdpp Require Import base option list strings gmap pretty.

Local Open Scope string_scope.
Local Open Scope Z_scope.

(** ** JavaScript values the class inspects *)

Definition Token := string.

(** What [JSON.parse] produces. *)
#[local] Set Warnings "-register-all".
Inductive JSON :=
| JNull
| JBool (b : bool)
| JNum (n : Z)
| JStr (s : string)
| JArr (items : list JSON)
| JObj (fields : list (string * JSON)).

(** The [error] of a [DropboxResponseError], as the class reads it: the
    provider's [error] code and [error_description], each a string or
    missing ([undefined]). *)
Record ErrBody := { error : option string; error_description : option string }.

(** Values that are thrown, or that reject a promise. *)
Inductive Reason :=
| DropboxResponseError (status : Z) (body : ErrBody)
| Error (message : string) (cause : option Reason)
| TypeError (message : string)
| SyntaxError (message : string)
| OtherReason (descr : string).

(** Outcome of awaiting a promise, or of running a method. *)
Inductive Result (A : Type) :=
| Ok (a : A)
| Throw (reason : Reason)
| Hang.
Arguments Ok {A} a.
Arguments Throw {A} reason.
Arguments Hang {A}.

(** [`${v}`] for a string that may be [undefined]/[null]. *)
Definition template (undef : string) (v : option string) : string :=
  match v with Some s => s | None => undef end.

(** Truthiness of a string-or-absent value: absent and [''] are falsy. *)
Definition truthy (v : option string) : bool :=
  match v with
  | Some s => negb (String.eqb s "")
  | None => false
  end.

Definition nl : string := String (ascii_of_nat 10) EmptyString.
Definition dq : string := String (ascii_of_nat 34) EmptyString.

(** A parsed [URL]: the raw query string and the decoded parameters. *)
Record URL := { search : string; searchParams : list (string * string) }.

Fixpoint searchParams_get (key : string) (ps : list (string * string)) : option string :=
  match ps with
  | [] => None
  | (k, v) :: rest => if String.eqb k key then Some v else searchParams_get key rest
  end.

Definition searchParams_has (key : string) (ps : list (string * string)) : bool :=
  match searchParams_get key ps with Some _ => true | None => false end.

(** [Object.getOwnPropertyDescriptor(obj, key)?.value] on an object's fields. *)
Fixpoint own_property (key : string) (fields : list (string * JSON)) : option JSON :=
  match fields with
  | [] => None
  | (k, v) :: rest => if String.eqb k key then Some v else own_property key rest
  end.

Record File := { name : string; size : Z }.

Record TokenInfo := {
  access_token : Token;
  refresh_token : option Token;
  expires_in : Z
}.

Definition APIResult := JSON.

(** ** The outside world *)

(** Effects of the class on its collaborators, in the order they happen. *)
Inductive Call :=
| checkAndRefreshAccessToken
| checkUser (query : string)
| getAuthenticationUrl (redirectURI : string) (state : JSON)
    (authType tokenType : string) (usePKCE : bool)
| getAccessTokenFromCode (redirectURI : string) (code : option string)
| filesUpload (path : string) (contents : File)
| filesUploadSessionStart
| filesUploadSessionAppendV2 (session_id : string) (offset : Z) (slice_start slice_end : Z)
| filesUploadSessionFinish (session_id : string) (offset : Z) (path : string)
| filesListFolder (path : string)
| filesDownload (path : string)
| saveToken (token : option Token)
| console_debug (err : Reason)
| window_open (target : option string)
| popup_location_href (url : string)
| popup_focus
| popup_close
| addEventListener
| removeEventListener
| setTimeout (ms : Z)
| stopImmediatePropagation
| location_replace (url : string).

(** A cross-window message: [event.data.OAuthRedirect] when [event.data] has
    that property, and whether [event.source] is the popup. *)
Record Message := { OAuthRedirect : option string; from_popup : bool }.

Inductive Event :=
| MessageEvent (m : Message)
| TimerEvent.

(** What [checkUser] resolves with, as the class reads it: [response.result]
    is missing ([null] or [undefined]), or it is an object whose [result]
    is a string or anything else. *)
Definition CheckUserResponse := option (option string).

(** Answers of the collaborators.  [refresh_endpoint] is the outcome of the
    SDK's [checkAndRefreshAccessToken()]: resolved, with the renewed access
    token and expiry when it renewed them, or rejected.  [authUrl_endpoint]
    gives the authorization URL and the PKCE verifier the SDK keeps.
    [messages] are the cross-window messages that arrive before the timer
    of a popup attempt fires.  [URL_parse] and [JSON_parse] are the
    browser's [new URL(text)] and [JSON.parse(text)], [None] when they
    throw. *)
Record Env := {
  randomUUID : nat -> string;
  Date_now : Z;
  location : URL;
  URL_parse : string -> option URL;
  JSON_parse : string -> option JSON;
  refresh_endpoint : Result (option (Token * Z));
  checkUser_endpoint : string -> Result CheckUserResponse;
  authUrl_endpoint : string -> JSON -> string -> Result (string * string);
  exchange_endpoint : string -> option string -> Result TokenInfo;
  window_open_ok : bool;
  messages : list Message;
  filesUpload_endpoint : string -> Result APIResult;
  sessionStart_endpoint : Result string;
  sessionAppend_endpoint : Z -> Result unit;
  sessionFinish_endpoint : Result APIResult;
  filesListFolder_endpoint : string -> Result APIResult;
  filesDownload_endpoint : string -> Result APIResult
}.

(** A property that holds a string once it is set: [undefined] before, and
    [null] or the string after. *)
Inductive Slot :=
| Undefined
| Null
| Str (s : string).

(** [String(v)], as [sessionStorage.setItem] applies it to its value. *)
Definition ToString (v : Slot) : string :=
  match v with
  | Undefined => "undefined"
  | Null => "null"
  | Str s => s
  end.

(** [this.#dbx.auth].  [getCodeVerifier] is what the SDK's getter of that
    name returns. *)
Record Auth := {
  accessToken : option Token;
  refreshToken : option Token;
  accessTokenExpiresAt : option Z;
  getCodeVerifier : Slot
}.

(** The PKCE verifier of the authorization context, when it is a string. *)
Definition codeVerifier (a : Auth) : option string :=
  match getCodeVerifier a with
  | Str s => Some s
  | _ => None
  end.

(** Closures the class hands to the browser, as data. *)
Inductive Handler :=
| redirectHandler (OAuthState : string)
| timeoutHandler (timeout : Z)
| cleanupHandler.

Inductive PState :=
| Pending
| Fulfilled (value : option string)
| Rejected (reason : Reason).

(** The promise of the attempt in flight and the browser's queues. *)
Record Page := {
  OAuthPromise : PState;
  reactions : list Handler;
  microtasks : list Handler;
  message_listener : option Handler;
  timer : option Handler
}.

(** The state the class works on.  [tokenStorage] is absent when no storage
    was injected, and otherwise holds what the storage persists (what its
    [loadToken()] would give: [saveToken] overwrites it and does not fail).
    [uuids] counts the draws of [crypto.randomUUID()]; [trace] lists the
    calls made so far, oldest first. *)
Record World := {
  auth : Auth;
  tokenStorage : option (option Token);
  sessionStorage : gmap string string;
  uuids : nat;
  page : Page;
  trace : list Call
}.

(** The private fields set by the constructor. *)
Record Self := {
  redirectURI : string;
  appId : option string;
  useOfflineToken : bool;
  usePopupRedirect : bool
}.

(** ** Field updates *)

Definition set_refreshToken (t : option Token) (a : Auth) : Auth :=
  {| accessToken := accessToken a; refreshToken := t;
     accessTokenExpiresAt := accessTokenExpiresAt a; getCodeVerifier := getCodeVerifier a |}.

Definition set_accessToken (t : option Token) (a : Auth) : Auth :=
  {| accessToken := t; refreshToken := refreshToken a;
     accessTokenExpiresAt := accessTokenExpiresAt a; getCodeVerifier := getCodeVerifier a |}.

Definition set_accessTokenExpiresAt (t : option Z) (a : Auth) : Auth :=
  {| accessToken := accessToken a; refreshToken := refreshToken a;
     accessTokenExpiresAt := t; getCodeVerifier := getCodeVerifier a |}.

(** [setCodeVerifier(v)] for a [v] that is [null] or a string. *)
Definition set_codeVerifier (v : option string) (a : Auth) : Auth :=
  {| accessToken := accessToken a; refreshToken := refreshToken a;
     accessTokenExpiresAt := accessTokenExpiresAt a;
     getCodeVerifier := match v with Some s => Str s | None => Null end |}.

Definition with_auth (f : Auth -> Auth) (w : World) : World :=
  {| auth := f (auth w); tokenStorage := tokenStorage w;
     sessionStorage := sessionStorage w; uuids := uuids w;
     page := page w; trace := trace w |}.

Definition with_tokenStorage (f : option (option Token) -> option (option Token))
    (w : World) : World :=
  {| auth := auth w; tokenStorage := f (tokenStorage w);
     sessionStorage := sessionStorage w; uuids := uuids w;
     page := page w; trace := trace w |}.

Definition with_sessionStorage (f : gmap string string -> gmap string string)
    (w : World) : World :=
  {| auth := auth w; tokenStorage := tokenStorage w;
     sessionStorage := f (sessionStorage w); uuids := uuids w;
     page := page w; trace := trace w |}.

Definition with_uuids (f : nat -> nat) (w : World) : World :=
  {| auth := auth w; tokenStorage := tokenStorage w;
     sessionStorage := sessionStorage w; uuids := f (uuids w);
     page := page w; trace := trace w |}.

Definition with_page (f : Page -> Page) (w : World) : World :=
  {| auth := auth w; tokenStorage := tokenStorage w;
     sessionStorage := sessionStorage w; uuids := uuids w;
     page := f (page w); trace := trace w |}.

Definition log (c : Call) (w : World) : World :=
  {| auth := auth w; tokenStorage := tokenStorage w;
     sessionStorage := sessionStorage w; uuids := uuids w;
     page := page w; trace := trace w ++ [c] |}.

(** ** The monad of asynchronous methods *)

Definition M (A : Type) : Type := World -> Result A * World.

Definition ret {A} (a : A) : M A := fun w => (Ok a, w).
Definition throw {A} (r : Reason) : M A := fun w => (Throw r, w).
Definition hang {A} : M A := fun w => (Hang, w).

Definition bind {A B} (m : M A) (k : A -> M B) : M B :=
  fun w =>
    match m w with
    | (Ok a, w') => k a w'
    | (Throw r, w') => (Throw r, w')
    | (Hang, w') => (Hang, w')
    end.

Notation "x <- m ;; k" := (bind m (fun x => k))
  (at level 100, m at next level, right associativity).
Notation "m ;;; k" := (bind m (fun _ => k))
  (at level 100, right associativity).

(** [promise.catch(handler)]: the effects of the rejected computation stay. *)
Definition catch {A} (m : M A) (handler : Reason -> M A) : M A :=
  fun w =>
    match m w with
    | (Throw r, w') => handler r w'
    | other => other
    end.

(** [promise.then(onFulfilled, onRejected)]: [onRejected] sees only the
    rejection of [promise], not what [onFulfilled] throws. *)
Definition then2 {A B} (m : M A) (onFulfilled : A -> M B) (onRejected : Reason -> M B) : M B :=
  fun w =>
    match m w with
    | (Ok a, w') => onFulfilled a w'
    | (Throw r, w') => onRejected r w'
    | (Hang, w') => (Hang, w')
    end.

Definition effect (f : World -> World) : M unit := fun w => (Ok tt, f w).
Definition get {A} (f : World -> A) : M A := fun w => (Ok (f w), w).

(** Awaiting the answer of a collaborator. *)
Definition answer {A} (r : Result A) : M A := fun w => (r, w).

(** ** The class *)

Definition is_invalid_grant (reason : Reason) : bool :=
  match reason with
  | DropboxResponseError _ body =>
      match error body with
      | Some code => String.eqb code "invalid_grant"
      | None => false
      end
  | _ => false
  end.

Definition catchCallback (message : string) (reason : Reason) : Reason :=
  match reason with
  | DropboxResponseError _ body =>
      Error (message ++ nl ++ "DropboxResponseError(" ++ template "undefined" (error body)
               ++ "): " ++ template "undefined" (error_description body) ++ ".")
            (Some reason)
  | _ => Error message (Some reason)
  end.

Definition rethrow {A} (message : string) (reason : Reason) : M A :=
  throw (catchCallback message reason).

Definition CHUNK_SIZE : Z := 12 * 1024 * 1024.
Definition FILE_SIZE_LIMIT : Z := 150 * 1024 * 1024.
Definition OAUTH_TIMEOUT : Z := 120.

Section DropboxCloud.
Variable env : Env.
Variable self : Self.

(** [crypto.randomUUID()] *)
Definition crypto_randomUUID : M string :=
  n <- get uuids ;;
  effect (with_uuids S) ;;;
  ret (randomUUID env n).

(** [this.#dbx.auth.checkAndRefreshAccessToken()]: on success the SDK may
    have replaced the access token and its expiry. *)
Definition dbx_checkAndRefreshAccessToken : M unit :=
  effect (log checkAndRefreshAccessToken) ;;;
  renewed <- answer (refresh_endpoint env) ;;
  match renewed with
  | Some (tok, expiry) =>
      effect (with_auth (fun a => set_accessTokenExpiresAt (Some expiry)
                                    (set_accessToken (Some tok) a)))
  | None => ret tt
  end.

(** [this.#tokenStorage?.saveToken(token)] *)
Definition tokenStorage_saveToken (token : option Token) : M unit :=
  st <- get tokenStorage ;;
  match st with
  | Some _ =>
      effect (log (saveToken token)) ;;;
      effect (with_tokenStorage (fun _ => Some token))
  | None => ret tt
  end.

Definition OAuthRefreshToken : M bool :=
  held <- get (fun w => refreshToken (auth w)) ;;
  if truthy held then
    catch
      (catch
         (dbx_checkAndRefreshAccessToken ;;; ret true)
         (fun reason =>
            if is_invalid_grant reason then
              effect (log (console_debug
                (Error ("Error refreshing token: "
                        ++ match reason with
                           | DropboxResponseError _ body =>
                               template "undefined" (error_description body)
                           | _ => "undefined"
                           end
                        ++ ". Removing refresh token.")
                       (Some reason)))) ;;;
              effect (with_auth (set_refreshToken None)) ;;;
              tokenStorage_saveToken None ;;;
              ret false
            else
              throw reason))
      (rethrow "Error refreshing token!")
  else
    ret true.

Definition dbx_checkUser (query : string) : M CheckUserResponse :=
  effect (log (checkUser query)) ;;;
  answer (checkUser_endpoint env query).

Definition OAuthCheckToken : M bool :=
  fresh <- OAuthRefreshToken ;;
  if fresh then
    query <- crypto_randomUUID ;;
    then2 (dbx_checkUser query)
      (fun response =>
         match response with
         | Some result =>
             ret (match result with
                  | Some echo => String.eqb echo query
                  | None => false
                  end)
         | None => throw (TypeError "Cannot read properties of undefined (reading 'result')")
         end)
      (fun reason => ret false)
  else
    ret false.

(** *** Redirect handling *)

(** [JSON.parse(text)]; a [null] argument is read as the text [null]. *)
Definition JSON_parse_arg (text : option string) : M JSON :=
  match JSON_parse env (template "null" text) with
  | Some v => ret v
  | None => throw (SyntaxError "JSON.parse: unexpected token")
  end.

(** [Object.getOwnPropertyDescriptor(obj, 'state')?.value]: [null] is not
    an object; strings, numbers, booleans and arrays have no own
    property of that name. *)
Definition own_state (obj : JSON) : M (option JSON) :=
  match obj with
  | JNull => throw (TypeError "Object.getOwnPropertyDescriptor called on non-object")
  | JObj fields => ret (own_property "state" fields)
  | _ => ret None
  end.

(** [OAuthState === redirectState], for a state that is a string or [null]
    and a decoded value that may be [undefined]. *)
Definition strict_equal (OAuthState : option string) (redirectState : option JSON) : bool :=
  match OAuthState, redirectState with
  | Some s, Some (JStr t) => String.eqb s t
  | None, Some JNull => true
  | _, _ => false
  end.

Definition mismatch_message (redirectURL : URL) : string :=
  "Mismatched state on redirect, something has gone wrong. The search string was "
  ++ dq ++ search redirectURL ++ dq ++ ".".

Definition OAuthRedirectHandler (OAuthState : option string)
    (OAuthResolve : option string -> M unit) (OAuthReject : Reason -> M unit)
    (redirectURL : URL) : M unit :=
  let redirect := searchParams redirectURL in
  stateObj <- JSON_parse_arg (searchParams_get "state" redirect) ;;
  redirectState <- own_state stateObj ;;
  if strict_equal OAuthState redirectState then
    OAuthResolve (searchParams_get "code" redirect)
  else
    OAuthReject (Error (mismatch_message redirectURL) None).

(** *** The promise of an attempt *)

(** [Promise.withResolvers()] *)
Definition Promise_withResolvers : M unit :=
  effect (with_page (fun p =>
    {| OAuthPromise := Pending; reactions := []; microtasks := microtasks p;
       message_listener := message_listener p; timer := timer p |})).

(** Settling a pending promise schedules its reactions; settling a
    settled promise does nothing. *)
Definition settle (outcome : PState) (p : Page) : Page :=
  match OAuthPromise p with
  | Pending =>
      {| OAuthPromise := outcome; reactions := [];
         microtasks := microtasks p ++ reactions p;
         message_listener := message_listener p; timer := timer p |}
  | _ => p
  end.

Definition OAuthResolve (value : option string) : M unit :=
  effect (with_page (settle (Fulfilled value))).

Definition OAuthReject (reason : Reason) : M unit :=
  effect (with_page (settle (Rejected reason))).

(** [OAuthPromise.finally(handler)] *)
Definition OAuthPromise_finally (handler : Handler) : M unit :=
  effect (with_page (fun p =>
    match OAuthPromise p with
    | Pending =>
        {| OAuthPromise := Pending; reactions := reactions p ++ [handler];
           microtasks := microtasks p;
           message_listener := message_listener p; timer := timer p |}
    | settled =>
        {| OAuthPromise := settled; reactions := reactions p;
           microtasks := microtasks p ++ [handler];
           message_listener := message_listener p; timer := timer p |}
    end)).

Definition set_message_listener (l : option Handler) (p : Page) : Page :=
  {| OAuthPromise := OAuthPromise p; reactions := reactions p;
     microtasks := microtasks p; message_listener := l; timer := timer p |}.

Definition set_timer (t : option Handler) (p : Page) : Page :=
  {| OAuthPromise := OAuthPromise p; reactions := reactions p;
     microtasks := microtasks p; message_listener := message_listener p; timer := t |}.

Definition set_microtasks (js : list Handler) (p : Page) : Page :=
  {| OAuthPromise := OAuthPromise p; reactions := reactions p;
     microtasks := js; message_listener := message_listener p; timer := timer p |}.

(** *** Popup channel *)

Definition popupRedirectHandler (OAuthState : string) (event : Message) : M unit :=
  match OAuthRedirect event with
  | Some href =>
      if from_popup event then
        match URL_parse env href with
        | Some redirectURL =>
            OAuthRedirectHandler (Some OAuthState) OAuthResolve OAuthReject redirectURL ;;;
            effect (log stopImmediatePropagation)
        | None => throw (TypeError "Invalid URL")
        end
      else ret tt
  | None => ret tt
  end.

Definition timeout_message (timeout : Z) : string :=
  "OAuth timed out after " ++ pretty timeout ++ " seconds.".

Definition popupTimeoutHandler (timeout : Z) : M unit :=
  OAuthReject (Error (timeout_message timeout) None).

Definition popupRedirectCleanup : M unit :=
  effect (log popup_close) ;;;
  effect (log removeEventListener) ;;;
  effect (with_page (set_message_listener None)).

Definition handlePopupRedirect (OAuthState : string) (timeout : Z) : M unit :=
  Promise_withResolvers ;;;
  effect (log addEventListener) ;;;
  effect (with_page (set_message_listener (Some (redirectHandler OAuthState)))) ;;;
  effect (log (setTimeout (timeout * 1000))) ;;;
  effect (with_page (set_timer (Some (timeoutHandler timeout)))) ;;;
  OAuthPromise_finally cleanupHandler.

(** *** The browser's event loop *)

(** An exception escaping a listener is reported and the loop goes on. *)
Definition uncaught (m : M unit) : M unit := catch m (fun _ => ret tt).

Definition run_handler (h : Handler) (event : option Message) : M unit :=
  match h, event with
  | redirectHandler OAuthState, Some m => popupRedirectHandler OAuthState m
  | redirectHandler _, None => ret tt
  | timeoutHandler timeout, _ => popupTimeoutHandler timeout
  | cleanupHandler, _ => popupRedirectCleanup
  end.

Fixpoint run_jobs (jobs : list Handler) : M unit :=
  match jobs with
  | [] => ret tt
  | j :: rest => uncaught (run_handler j None) ;;; run_jobs rest
  end.

(** The microtask checkpoint after a task. *)
Definition run_microtasks : M unit :=
  jobs <- get (fun w => microtasks (page w)) ;;
  effect (with_page (set_microtasks [])) ;;;
  run_jobs jobs.

(** One task of the loop: a message delivered to the listener, or the
    timer (which fires once). *)
Definition dispatch (ev : Event) : M unit :=
  match ev with
  | MessageEvent m =>
      listener <- get (fun w => message_listener (page w)) ;;
      match listener with
      | Some h => uncaught (run_handler h (Some m))
      | None => ret tt
      end ;;;
      run_microtasks
  | TimerEvent =>
      armed <- get (fun w => timer (page w)) ;;
      effect (with_page (set_timer None)) ;;;
      match armed with
      | Some h => uncaught (run_handler h None)
      | None => ret tt
      end ;;;
      run_microtasks
  end.

Fixpoint run_events (evs : list Event) : M unit :=
  match evs with
  | [] => ret tt
  | ev :: rest => dispatch ev ;;; run_events rest
  end.

(** [await OAuthPromise] while the loop delivers [evs]. *)
Fixpoint await_OAuthPromise (evs : list Event) : M (option string) :=
  settled <- get (fun w => OAuthPromise (page w)) ;;
  match settled with
  | Fulfilled value => ret value
  | Rejected reason => throw reason
  | Pending =>
      match evs with
      | [] => hang
      | ev :: rest => dispatch ev ;;; await_OAuthPromise rest
      end
  end.

(** The messages that arrive while the timer runs, then the timer. *)
Definition popup_events : list Event :=
  map MessageEvent (messages env) ++ [TimerEvent].

Definition OAuthPopupRedirect (OAuthState OAuthURL : string) (timeout : Z)
    : M (option string) :=
  effect (log (window_open (appId self))) ;;;
  if window_open_ok env then
    handlePopupRedirect OAuthState timeout ;;;
    effect (log (popup_location_href OAuthURL)) ;;;
    effect (log popup_focus) ;;;
    await_OAuthPromise popup_events
  else
    throw (Error "Failed to create popup for authentication!" None).

(** *** Navigation channel *)

Definition storage_key (prefix : string) : string :=
  prefix ++ "-" ++ template "null" (appId self).

Definition navigationRedirectHandler (redirectURL : URL) : M (option string) :=
  OAuthState <- get (fun w => sessionStorage w !! storage_key "OAuthState") ;;
  CodeVerifier <- get (fun w => sessionStorage w !! storage_key "CodeVerifier") ;;
  effect (with_auth (set_codeVerifier CodeVerifier)) ;;;
  Promise_withResolvers ;;;
  OAuthRedirectHandler OAuthState OAuthResolve OAuthReject redirectURL ;;;
  await_OAuthPromise [].

Definition OAuthNavigationRedirect (OAuthState OAuthURL : string) : M (option string) :=
  effect (with_sessionStorage (insert (storage_key "OAuthState") OAuthState)) ;;;
  verifier <- get (fun w => getCodeVerifier (auth w)) ;;
  effect (with_sessionStorage
            (insert (storage_key "CodeVerifier") (ToString verifier))) ;;;
  effect (log (location_replace OAuthURL)) ;;;
  ret None.

Definition appId_json : JSON :=
  match appId self with Some a => JStr a | None => JNull end.

(** [this.#dbx.auth.getAuthenticationUrl(...)]: with PKCE the SDK keeps the
    verifier it generated. *)
Definition dbx_getAuthenticationUrl (state : JSON) (tokenType : string) : M string :=
  effect (log (getAuthenticationUrl (redirectURI self) state "code" tokenType true)) ;;;
  built <- answer (authUrl_endpoint env (redirectURI self) state tokenType) ;;
  effect (with_auth (set_codeVerifier (Some (snd built)))) ;;;
  ret (fst built).

Definition OAuthGetCode (timeout : Z) (offlineToken popupRedirect : bool)
    : M (option string) :=
  let currentURL := location env in
  let redirect := searchParams currentURL in
  if searchParams_has "code" redirect && searchParams_has "state" redirect then
    navigationRedirectHandler currentURL
  else
    state <- crypto_randomUUID ;;
    let tokenType := if offlineToken then "offline" else "online" in
    OAuthURL <- dbx_getAuthenticationUrl
                  (JObj [("state", JStr state); ("appId", appId_json)]) tokenType ;;
    if popupRedirect then
      OAuthPopupRedirect state OAuthURL timeout
    else
      OAuthNavigationRedirect state OAuthURL.

Definition OAuthGetTokenInfo (OAuthCode : option string) : M TokenInfo :=
  effect (log (getAccessTokenFromCode (redirectURI self) OAuthCode)) ;;;
  answer (exchange_endpoint env (redirectURI self) OAuthCode).

(** *** Uploads *)

(** [dir.at(-1)] *)
Fixpoint last_char (s : string) : option ascii :=
  match s with
  | EmptyString => None
  | String c EmptyString => Some c
  | String _ rest => last_char rest
  end.

Definition ends_with_slash (dir : string) : bool :=
  match last_char dir with
  | Some c => Ascii.eqb c "/"%char
  | None => false
  end.

Definition uploadSmallFile (file : File) (dir : string) : M APIResult :=
  let dir := if ends_with_slash dir then dir else dir ++ "/" in
  let path := dir ++ name file in
  effect (log (filesUpload path file)) ;;;
  answer (filesUpload_endpoint env path).

(** [Math.ceil(a / b)] on integers (a file size is an integer below [2^53],
    where the quotient rounds to no integer it does not reach). *)
Definition Math_ceil_div (a b : Z) : Z := - ((- a) / b).

(** [for (const idx in arr) { await body(idx, arr[idx]) }]: the keys of an
    array come in ascending index order (as decimal strings, which [*]
    turns back into numbers), and a rejected [await] leaves the loop. *)
Fixpoint for_in {A} (body : nat -> A -> M unit) (idx : nat) (arr : list A) : M unit :=
  match arr with
  | [] => ret tt
  | x :: rest => body idx x ;;; for_in body (S idx) rest
  end.

(** The chunks, each the pair of bounds given to [file.slice]. *)
Definition fileChunks (file : File) : list (Z * Z) :=
  map (fun chunkIdx : nat =>
         (Z.of_nat chunkIdx * CHUNK_SIZE, (Z.of_nat chunkIdx + 1) * CHUNK_SIZE))
      (seq 0 (Z.to_nat (Math_ceil_div (size file) CHUNK_SIZE))).

Definition uploadLargeFile (file : File) : M APIResult :=
  let chunks := fileChunks file in
  uploadSession <- (effect (log filesUploadSessionStart) ;;;
                    answer (sessionStart_endpoint env)) ;;
  for_in (fun chunkIdx chunk =>
            let offset := Z.of_nat chunkIdx * CHUNK_SIZE in
            effect (log (filesUploadSessionAppendV2 uploadSession offset
                           (fst chunk) (snd chunk))) ;;;
            answer (sessionAppend_endpoint env offset))
         0%nat chunks ;;;
  effect (log (filesUploadSessionFinish uploadSession (size file) ("/" ++ name file))) ;;;
  answer (sessionFinish_endpoint env).

(** *** Public API *)

Definition OAuth (timeout : option Z) (offlineToken popupRedirect : option bool) : M unit :=
  authenticated <- OAuthCheckToken ;;
  if authenticated then ret tt
  else
    let timeout := default OAUTH_TIMEOUT timeout in
    let offlineToken := default (useOfflineToken self) offlineToken in
    let popupRedirect := default (usePopupRedirect self) popupRedirect in
    OAuthCode <- catch (OAuthGetCode timeout offlineToken popupRedirect)
                   (rethrow "Error fetching OAuth Code.") ;;
    if negb (truthy OAuthCode) && negb popupRedirect then
      ret tt
    else
      tokenInfo <- catch (OAuthGetTokenInfo OAuthCode)
                     (rethrow "Error converting the OAuth Code to an OAuth Token.") ;;
      effect (with_auth (set_accessToken (Some (access_token tokenInfo)))) ;;;
      if offlineToken then
        effect (with_auth (set_refreshToken (refresh_token tokenInfo))) ;;;
        effect (with_auth (set_accessTokenExpiresAt
                             (Some (Date_now env + expires_in tokenInfo)))) ;;;
        tokenStorage_saveToken (refresh_token tokenInfo)
      else
        ret tt.

Definition fetchFileList (path : string) (timeout : option Z) : M APIResult :=
  OAuth timeout None None ;;;
  catch (effect (log (filesListFolder path)) ;;;
         answer (filesListFolder_endpoint env path))
        (rethrow ("Error fetching file list from " ++ path ++ ".")).

Definition downloadFile (path : string) (timeout : option Z) : M APIResult :=
  OAuth timeout None None ;;;
  catch (effect (log (filesDownload path)) ;;;
         answer (filesDownload_endpoint env path))
        (rethrow ("Error downloading file from " ++ path ++ ".")).

Definition uploadFile (file : File) (timeout : option Z) : M APIResult :=
  OAuth timeout None None ;;;
  catch (if size file <? FILE_SIZE_LIMIT
         then uploadSmallFile file "/"
         else uploadLargeFile file)
        (rethrow ("Error uploading file " ++ "[object File]" ++ ".")).

End DropboxCloud.

(** [new DropboxCloud(clientId, redirectURI, appId, tokenStorage,
    offlineToken, popupRedirect)]: the instance and the state it starts in.
    [stored] is the token storage (absent, or what [loadToken()] gives);
    [session] is what the browser's session storage holds at that time. *)
Definition constructor (clientId redirectURI : string) (appId : option string)
    (stored : option (option Token)) (offlineToken popupRedirect : bool)
    (session : gmap string string) : Result (Self * World) :=
  if String.eqb clientId "" then
    Throw (Error "You must provide your Client ID (your Dropbox App key)!" None)
  else
    Ok ({| redirectURI := redirectURI; appId := appId;
           useOfflineToken := offlineToken; usePopupRedirect := popupRedirect |},
        {| auth := {| accessToken := None;
                      refreshToken := match stored with Some t => t | None => None end;
                      accessTokenExpiresAt := None; getCodeVerifier := Undefined |};
           tokenStorage := stored;
           sessionStorage := session;
           uuids := 0%nat;
           page := {| OAuthPromise := Pending; reactions := []; microtasks := [];
                      message_listener := None; timer := None |};
           trace := [] |}).

(** ** The earlier revision of the class ([DropboxCloud.esm.js])

    It has the popup channel only and always asks for an offline token; its
    [catchCallback] does not look at the rejection.  Its popup handlers
    ([#OAuthRedirectHandler], [#OAuthTimeoutHandler], [#OAuthRedirectCleanup],
    [#OAuthHandleRedirect]) are the later revision's under other names, and
    so is what its [#OAuthGetCode] does once it has the URL. *)

Module Esm.
Section DropboxCloud.
Variable env : Env.
Variable self : Self.

Definition catchCallback (message : string) (reason : Reason) : Reason :=
  Error message (Some reason).

Definition rethrow {A} (message : string) (reason : Reason) : M A :=
  throw (catchCallback message reason).

Definition OAuthRefreshedToken : M (option Token) :=
  held <- get (fun w => refreshToken (auth w)) ;;
  (if truthy held then dbx_checkAndRefreshAccessToken env else ret tt) ;;;
  get (fun w => accessToken (auth w)).

Definition OAuthGetCode (timeout : Z) : M (option string) :=
  state <- crypto_randomUUID env ;;
  authUrl <- dbx_getAuthenticationUrl env self
               (JObj [("state", JStr state); ("appId", appId_json self)]) "offline" ;;
  OAuthPopupRedirect env self state authUrl timeout.

Definition OAuth (timeout : option Z) : M unit :=
  token <- OAuthRefreshedToken ;;
  if truthy token then ret tt
  else
    OAuthCode <- catch (OAuthGetCode (default OAUTH_TIMEOUT timeout))
                   (rethrow "Error fetching OAuth code.") ;;
    tokenInfo <- catch (OAuthGetTokenInfo env self OAuthCode)
                   (rethrow "Error converting the OAuth code to an OAuth token.") ;;
    effect (with_auth (set_accessToken (Some (access_token tokenInfo)))) ;;;
    effect (with_auth (set_refreshToken (refresh_token tokenInfo))) ;;;
    effect (with_auth (set_accessTokenExpiresAt
                         (Some (Date_now env + expires_in tokenInfo)))) ;;;
    tokenStorage_saveToken (refresh_token tokenInfo).

End DropboxCloud.
End Esm.

(** ** Concrete collaborators, for running the class *)

Module Sample.

Definition state_text : string :=
  "{" ++ dq ++ "state" ++ dq ++ ":" ++ dq ++ "uuid-0" ++ dq ++ ","
      ++ dq ++ "appId" ++ dq ++ ":" ++ dq ++ "demo" ++ dq ++ "}".

Definition state_json : JSON := JObj [("state", JStr "uuid-0"); ("appId", JStr "demo")].

Definition forged_text : string :=
  "{" ++ dq ++ "state" ++ dq ++ ":" ++ dq ++ "forged" ++ dq ++ "}".

Definition forged_json : JSON := JObj [("state", JStr "forged")].

Definition redirect_href : string := "https://app.example/redirect?code=ABC&state=uuid-0".

Definition redirect_url : URL :=
  {| search := "?code=ABC&state=uuid-0";
     searchParams := [("code", "ABC"); ("state", state_text)] |}.

Definition forged_href : string := "https://app.example/redirect?code=EVIL&state=forged".

Definition forged_url : URL :=
  {| search := "?code=EVIL&state=forged";
     searchParams := [("code", "EVIL"); ("state", forged_text)] |}.

Definition blank_url : URL := {| search := ""; searchParams := [] |}.

Definition tokens : TokenInfo :=
  {| access_token := "at-1"; refresh_token := Some "rt-1"; expires_in := 14400 |}.

(** An environment in which every upload call succeeds, the popup opens,
    and the remaining answers are given. *)
Definition env (refresh : Result (option (Token * Z)))
    (probe : string -> Result CheckUserResponse) (page_url : URL) (msgs : list Message)
    : Env :=
  {| randomUUID := fun n => "uuid-" ++ pretty (Z.of_nat n);
     Date_now := 1700000000000;
     location := page_url;
     URL_parse := fun s =>
       if String.eqb s redirect_href then Some redirect_url
       else if String.eqb s forged_href then Some forged_url
       else None;
     JSON_parse := fun s =>
       if String.eqb s state_text then Some state_json
       else if String.eqb s forged_text then Some forged_json
       else if String.eqb s "null" then Some JNull
       else None;
     refresh_endpoint := refresh;
     checkUser_endpoint := probe;
     authUrl_endpoint := fun _ _ _ => Ok ("https://www.dropbox.com/oauth2/authorize", "verifier-1");
     exchange_endpoint := fun _ _ => Ok tokens;
     window_open_ok := true;
     messages := msgs;
     filesUpload_endpoint := fun _ => Ok JNull;
     sessionStart_endpoint := Ok "session-1";
     sessionAppend_endpoint := fun _ => Ok tt;
     sessionFinish_endpoint := Ok JNull;
     filesListFolder_endpoint := fun _ => Ok JNull;
     filesDownload_endpoint := fun _ => Ok JNull |}.

Definition echo (query : string) : Result CheckUserResponse := Ok (Some (Some query)).
Definition offline (query : string) : Result CheckUserResponse :=
  Throw (OtherReason "network down").

Definition self : Self :=
  {| redirectURI := "https://app.example/redirect"; appId := Some "demo";
     useOfflineToken := true; usePopupRedirect := true |}.

Definition world (held : option Token) (session : gmap string string) : World :=
  {| auth := {| accessToken := None; refreshToken := held;
                accessTokenExpiresAt := None; getCodeVerifier := Undefined |};
     tokenStorage := Some held;
     sessionStorage := session;
     uuids := 0%nat;
     page := {| OAuthPromise := Pending; reactions := []; microtasks := [];
                message_listener := None; timer := None |};
     trace := [] |}.

Definition invalid_grant : Reason :=
  DropboxResponseError 400
    {| error := Some "invalid_grant"; error_description := Some "refresh token is invalid or revoked" |}.

End Sample.

(** * Vocabulary of the properties *)

(** [needle] occurs in [text]. *)
Definition includes (text needle : string) : Prop :=
  exists before after, text = before ++ needle ++ after.

(** What the SDK's refresh leaves in the credential. *)
Definition renewed (upd : option (Token * Z)) (a : Auth) : Auth :=
  match upd with
  | Some (tok, expiry) => set_accessTokenExpiresAt (Some expiry) (set_accessToken (Some tok) a)
  | None => a
  end.

(** The calls of a redirect channel and of the code exchange. *)
Definition is_redirect_or_exchange (c : Call) : bool :=
  match c with
  | getAuthenticationUrl _ _ _ _ _ | getAccessTokenFromCode _ _
  | window_open _ | popup_location_href _ | popup_focus | addEventListener
  | setTimeout _ | location_replace _ => true
  | _ => false
  end.

Definition offsets_of (n : nat) : list Z :=
  map (fun chunkIdx : nat => Z.of_nat chunkIdx * CHUNK_SIZE) (seq 0 n).

Definition append_call (session : string) (chunkIdx : nat) : Call :=
  filesUploadSessionAppendV2 session (Z.of_nat chunkIdx * CHUNK_SIZE)
    (Z.of_nat chunkIdx * CHUNK_SIZE) ((Z.of_nat chunkIdx + 1) * CHUNK_SIZE).

Definition call_offset (c : Call) : option Z :=
  match c with
  | filesUploadSessionAppendV2 _ offset _ _ => Some offset
  | filesUploadSessionFinish _ offset _ => Some offset
  | _ => None
  end.

Definition is_session_call (c : Call) : bool :=
  match c with
  | filesUploadSessionStart | filesUploadSessionAppendV2 _ _ _ _
  | filesUploadSessionFinish _ _ _ => true
  | _ => false
  end.

Definition logs (calls : list Call) (w : World) : World :=
  {| auth := auth w; tokenStorage := tokenStorage w;
     sessionStorage := sessionStorage w; uuids := uuids w;
     page := page w; trace := trace w ++ calls |}.

Definition settled (w : World) : bool :=
  match OAuthPromise (page w) with Pending => false | _ => true end.

Definition count_calls (which : Call -> bool) (w : World) : nat :=
  length (List.filter which (trace w)).

Definition is_popup_close (c : Call) : bool :=
  match c with popup_close => true | _ => false end.

Definition is_removeEventListener (c : Call) : bool :=
  match c with removeEventListener => true | _ => false end.

(** The three ways an attempt ends. *)
Inductive Terminal (timeout : Z) : PState -> Prop :=
| code_resolution (code : option string) : Terminal timeout (Fulfilled code)
| mismatch_rejection (redirectURL : URL) :
    Terminal timeout (Rejected (Error (mismatch_message redirectURL) None))
| timeout_rejection :
    Terminal timeout (Rejected (Error (timeout_message timeout) None)).

(** What holds of an attempt between two tasks of the event loop: while the
    promise is pending the listener and the timer are in place and cleanup
    has not run; once it is settled, cleanup has run once and the listener
    is gone. [closes] and [removals] count the calls made before the
    attempt. *)
Definition attempt_invariant (OAuthState : string) (timeout : Z)
    (closes removals : nat) (w : World) : Prop :=
  microtasks (page w) = [] /\
  match OAuthPromise (page w) with
  | Pending =>
      reactions (page w) = [cleanupHandler] /\
      message_listener (page w) = Some (redirectHandler OAuthState) /\
      timer (page w) = Some (timeoutHandler timeout) /\
      count_calls is_popup_close w = closes /\
      count_calls is_removeEventListener w = removals
  | outcome =>
      Terminal timeout outcome /\
      reactions (page w) = [] /\
      message_listener (page w) = None /\
      (timer (page w) = None \/ timer (page w) = Some (timeoutHandler timeout)) /\
      count_calls is_popup_close w = S closes /\
      count_calls is_removeEventListener w = S removals
  end.

(** ** Vocabulary of the further properties *)

(** Where the refresh token lives: in memory and in the injected storage. *)
Definition at_rest (w : World) : option Token * option (option Token) :=
  (refreshToken (auth w), tokenStorage w).

(** [m] leaves the part [proj] of the state as it found it, whatever its
    outcome. *)
Definition preserves {S A : Type} (proj : World -> S) (m : M A) : Prop :=
  forall w, proj (snd (m w)) = proj w.

(** What the injected storage persists is the refresh token held in memory. *)
Definition in_sync (w : World) : Prop :=
  forall stored, tokenStorage w = Some stored -> stored = refreshToken (auth w).

(** [file.slice(start, end).size] for bounds that are not negative: both
    are clamped to the size of the file. *)
Definition slice_size (file : File) (chunk : Z * Z) : Z :=
  Z.max (Z.min (snd chunk) (size file) - Z.min (fst chunk) (size file)) 0.

(** A message the redirect listener lets pass: it has no [OAuthRedirect]
    marker, or it does not come from the popup. *)
Definition ignored (m : Message) : bool :=
  match OAuthRedirect m with
  | None => true
  | Some _ => negb (from_popup m)
  end.

(** The calls of [#OAuthPopupRedirect] before it waits. *)
Definition popup_setup_calls (self : Self) (OAuthURL : string) (timeout : Z) : list Call :=
  [window_open (appId self); addEventListener; setTimeout (timeout * 1000);
   popup_location_href OAuthURL; popup_focus].

(** A message from the popup, with the marker, that the redirect handler
    cannot read: its URL does not parse, or its [state] parameter is not
    JSON, or decodes to [null] (as a missing parameter does). *)
Definition malformed (env : Env) (m : Message) : bool :=
  match OAuthRedirect m with
  | Some href =>
      from_popup m &&
      match URL_parse env href with
      | None => true
      | Some redirectURL =>
          match JSON_parse env
                  (template "null" (searchParams_get "state" (searchParams redirectURL))) with
          | None | Some JNull => true
          | Some _ => false
          end
      end
  | None => false
  end.

(** The own [state] of a decoded value that is not [null]. *)
Definition decoded_state (v : JSON) : option JSON :=
  match v with
  | JObj fields => own_property "state" fields
  | _ => None
  end.

(** Further concrete collaborators: [Sample.env] with one answer replaced. *)
Module Edge.

Definition base : Env := Sample.env (Ok None) Sample.offline Sample.blank_url [].

Definition with_JSON_parse (parse : string -> option JSON) (env : Env) : Env :=
  {| randomUUID := randomUUID env; Date_now := Date_now env;
     location := location env; URL_parse := URL_parse env;
     JSON_parse := parse;
     refresh_endpoint := refresh_endpoint env;
     checkUser_endpoint := checkUser_endpoint env;
     authUrl_endpoint := authUrl_endpoint env;
     exchange_endpoint := exchange_endpoint env;
     window_open_ok := window_open_ok env; messages := messages env;
     filesUpload_endpoint := filesUpload_endpoint env;
     sessionStart_endpoint := sessionStart_endpoint env;
     sessionAppend_endpoint := sessionAppend_endpoint env;
     sessionFinish_endpoint := sessionFinish_endpoint env;
     filesListFolder_endpoint := filesListFolder_endpoint env;
     filesDownload_endpoint := filesDownload_endpoint env |}.

Definition with_exchange (exchange : Result TokenInfo) (env : Env) : Env :=
  {| randomUUID := randomUUID env; Date_now := Date_now env;
     location := location env; URL_parse := URL_parse env;
     JSON_parse := JSON_parse env;
     refresh_endpoint := refresh_endpoint env;
     checkUser_endpoint := checkUser_endpoint env;
     authUrl_endpoint := authUrl_endpoint env;
     exchange_endpoint := fun _ _ => exchange;
     window_open_ok := window_open_ok env; messages := messages env;
     filesUpload_endpoint := filesUpload_endpoint env;
     sessionStart_endpoint := sessionStart_endpoint env;
     sessionAppend_endpoint := sessionAppend_endpoint env;
     sessionFinish_endpoint := sessionFinish_endpoint env;
     filesListFolder_endpoint := filesListFolder_endpoint env;
     filesDownload_endpoint := filesDownload_endpoint env |}.

Definition with_window_open (ok : bool) (env : Env) : Env :=
  {| randomUUID := randomUUID env; Date_now := Date_now env;
     location := location env; URL_parse := URL_parse env;
     JSON_parse := JSON_parse env;
     refresh_endpoint := refresh_endpoint env;
     checkUser_endpoint := checkUser_endpoint env;
     authUrl_endpoint := authUrl_endpoint env;
     exchange_endpoint := exchange_endpoint env;
     window_open_ok := ok; messages := messages env;
     filesUpload_endpoint := filesUpload_endpoint env;
     sessionStart_endpoint := sessionStart_endpoint env;
     sessionAppend_endpoint := sessionAppend_endpoint env;
     sessionFinish_endpoint := sessionFinish_endpoint env;
     filesListFolder_endpoint := filesListFolder_endpoint env;
     filesDownload_endpoint := filesDownload_endpoint env |}.

Definition with_uploads (upload : Result APIResult) (start : Result string)
    (append : Z -> Result unit) (finish : Result APIResult) (env : Env) : Env :=
  {| randomUUID := randomUUID env; Date_now := Date_now env;
     location := location env; URL_parse := URL_parse env;
     JSON_parse := JSON_parse env;
     refresh_endpoint := refresh_endpoint env;
     checkUser_endpoint := checkUser_endpoint env;
     authUrl_endpoint := authUrl_endpoint env;
     exchange_endpoint := exchange_endpoint env;
     window_open_ok := window_open_ok env; messages := messages env;
     filesUpload_endpoint := fun _ => upload;
     sessionStart_endpoint := start;
     sessionAppend_endpoint := append;
     sessionFinish_endpoint := finish;
     filesListFolder_endpoint := filesListFolder_endpoint env;
     filesDownload_endpoint := filesDownload_endpoint env |}.

Definition with_listing (listing download : Result APIResult) (env : Env) : Env :=
  {| randomUUID := randomUUID env; Date_now := Date_now env;
     location := location env; URL_parse := URL_parse env;
     JSON_parse := JSON_parse env;
     refresh_endpoint := refresh_endpoint env;
     checkUser_endpoint := checkUser_endpoint env;
     authUrl_endpoint := authUrl_endpoint env;
     exchange_endpoint := exchange_endpoint env;
     window_open_ok := window_open_ok env; messages := messages env;
     filesUpload_endpoint := filesUpload_endpoint env;
     sessionStart_endpoint := sessionStart_endpoint env;
     sessionAppend_endpoint := sessionAppend_endpoint env;
     sessionFinish_endpoint := sessionFinish_endpoint env;
     filesListFolder_endpoint := fun _ => listing;
     filesDownload_endpoint := fun _ => download |}.

(** The page a navigation attempt returns to. *)
Definition returned : Env := Sample.env (Ok None) Sample.offline Sample.redirect_url [].

(** A return whose [state] is [{"state": null}]. *)
Definition null_state_url : URL :=
  {| search := "?code=ABC&state=nullstate";
     searchParams := [("code", "ABC"); ("state", "nullstate")] |}.

Definition null_state_env : Env :=
  with_JSON_parse (fun _ => Some (JObj [("state", JNull)]))
    (Sample.env (Ok None) Sample.offline null_state_url []).

End Edge.

(** [r] is the error [catchCallback] builds for the rejection [reason]
    under [context]: its cause is [reason], its message starts with
    [context], and is [context] when [reason] is not a
    [DropboxResponseError]. *)
Definition wraps (context : string) (reason r : Reason) : Prop :=
  exists text,
    r = Error text (Some reason) /\
    String.prefix context text = true /\
    ((forall status body, reason <> DropboxResponseError status body) -> text = context).

Module EdgeReturn.

(** A return whose [code] parameter is empty. *)
Definition empty_code_url : URL :=
  {| search := "?code=&state=uuid-0";
     searchParams := [("code", ""); ("state", Sample.state_text)] |}.

Definition empty_code_env : Env :=
  Sample.env (Ok None) Sample.offline empty_code_url [].

End EdgeReturn.

(** * Properties *)

Ltac unfold_monad :=
  unfold bind, catch, then2, ret, throw, hang, effect, get, answer, rethrow in *.

(** ** Strings *)

Lemma prefix_append (m rest : string) : String.prefix m (m ++ rest) = true.
Proof.
  induction m as [|c m IH]; simpl.
  - now destruct rest.
  - destruct (ascii_dec c c) as [_|Hne]; [exact IH | now destruct Hne].
Qed.

Lemma prefix_refl (m : string) : String.prefix m m = true.
Proof.
  induction m as [|c m IH]; simpl; [reflexivity|].
  destruct (ascii_dec c c) as [_|Hne]; [exact IH | now destruct Hne].
Qed.

Lemma append_assoc (a b c : string) : ((a ++ b) ++ c)%string = (a ++ (b ++ c))%string.
Proof.
  induction a as [|x a IH]; [reflexivity|].
  change (String x ((a ++ b) ++ c) = String x (a ++ (b ++ c)))%string.
  now rewrite IH.
Qed.

(** ** Token refresh *)

Lemma OAuthRefreshToken_not_held (env : Env) (w : World) :
  truthy (refreshToken (auth w)) = false ->
  OAuthRefreshToken env w = (Ok true, w).
Proof.
  intros Hheld. unfold OAuthRefreshToken. unfold_monad. now rewrite Hheld.
Qed.

Lemma is_invalid_grant_inv (reason : Reason) :
  is_invalid_grant reason = true ->
  exists status body,
    reason = DropboxResponseError status body /\ error body = Some "invalid_grant".
Proof.
  destruct reason as [status body| | | |]; simpl; try discriminate.
  destruct (error body) as [code|] eqn:Hcode; try discriminate.
  intros Heq. apply String.eqb_eq in Heq. subst code. eauto.
Qed.

(** The error built by [catchCallback] carries the rejection as its cause and
    a message that starts with the context message; for a rejection that is
    not a [DropboxResponseError] the message is the context message. *)
Lemma catchCallback_message (message : string) (reason : Reason) :
  exists text,
    catchCallback message reason = Error text (Some reason) /\
    String.prefix message text = true /\
    ((forall status body, reason <> DropboxResponseError status body) -> text = message).
Proof.
  destruct reason as [status body| | | |]; simpl; eexists; (split; [reflexivity|]);
    (split; [|first [ intros _; reflexivity | intros Hno; now destruct (Hno status body) ]]);
    first [ apply prefix_append | apply prefix_refl ].
Qed.

(** C1. With a refresh token held and the refresh endpoint rejecting with
    [invalid_grant], [#OAuthRefreshToken] returns [false] and throws
    nothing; the refresh token in memory is cleared, and when a token
    storage was injected its [saveToken(null)] is the last call made and
    the persisted token is absent.  The access token is not touched. *)
Theorem OAuthRefreshToken_invalid_grant (env : Env) (w : World)
    (status : Z) (body : ErrBody) :
  truthy (refreshToken (auth w)) = true ->
  refresh_endpoint env = Throw (DropboxResponseError status body) ->
  error body = Some "invalid_grant" ->
  exists w',
    OAuthRefreshToken env w = (Ok false, w') /\
    refreshToken (auth w') = None /\
    (forall stored, tokenStorage w = Some stored ->
       tokenStorage w' = Some None /\ last (trace w') = Some (saveToken None)) /\
    (tokenStorage w = None -> tokenStorage w' = None) /\
    accessToken (auth w') = accessToken (auth w) /\
    accessTokenExpiresAt (auth w') = accessTokenExpiresAt (auth w).
Proof.
  intros Hheld Hrej Hcode.
  unfold OAuthRefreshToken, dbx_checkAndRefreshAccessToken, tokenStorage_saveToken.
  unfold_monad. rewrite Hheld. simpl. rewrite Hrej. simpl. rewrite Hcode. simpl.
  destruct (tokenStorage w) as [stored|] eqn:Hst; simpl.
  - eexists; split; [reflexivity|]. simpl.
    repeat split; intros; try discriminate; try reflexivity. apply last_snoc.
  - eexists; split; [reflexivity|]. simpl.
    repeat split; intros; try discriminate; try reflexivity; assumption.
Qed.

Lemma OAuthRefreshToken_invalid_grant_witness :
  exists w',
    OAuthRefreshToken (Sample.env (Throw Sample.invalid_grant) Sample.echo Sample.blank_url [])
      (Sample.world (Some "rt-0") ∅) = (Ok false, w') /\
    refreshToken (auth w') = None /\
    tokenStorage w' = Some None /\
    last (trace w') = Some (saveToken None).
Proof.
  destruct (OAuthRefreshToken_invalid_grant
              (Sample.env (Throw Sample.invalid_grant) Sample.echo Sample.blank_url [])
              (Sample.world (Some "rt-0") ∅) 400
              {| error := Some "invalid_grant";
                 error_description := Some "refresh token is invalid or revoked" |}
              eq_refl eq_refl eq_refl)
    as (w' & Hrun & Hmem & Hst & _).
  exists w'. destruct (Hst (Some "rt-0") eq_refl) as [Hp Hl]. auto.
Defined.

(** C2. With a refresh token held and the refresh endpoint rejecting with
    anything but [invalid_grant], [#OAuthRefreshToken] throws an [Error]
    whose cause is the rejection and whose message starts with the fixed
    context [Error refreshing token!] (and is exactly that for a rejection
    that is not a [DropboxResponseError]); the credential and the injected
    storage are as before, and the refresh call is the only call made. *)
Theorem OAuthRefreshToken_other_rejection (env : Env) (w : World) (reason : Reason) :
  truthy (refreshToken (auth w)) = true ->
  refresh_endpoint env = Throw reason ->
  is_invalid_grant reason = false ->
  exists text w',
    OAuthRefreshToken env w = (Throw (Error text (Some reason)), w') /\
    String.prefix "Error refreshing token!" text = true /\
    ((forall status body, reason <> DropboxResponseError status body) ->
       text = "Error refreshing token!") /\
    auth w' = auth w /\
    tokenStorage w' = tokenStorage w /\
    trace w' = (trace w ++ [checkAndRefreshAccessToken])%list.
Proof.
  intros Hheld Hrej Hother.
  destruct (catchCallback_message "Error refreshing token!" reason)
    as (text & Hcb & Hprefix & Hplain).
  exists text. eexists.
  unfold OAuthRefreshToken, dbx_checkAndRefreshAccessToken.
  unfold_monad. rewrite Hheld. simpl. rewrite Hrej. simpl. rewrite Hother, Hcb.
  split; [reflexivity|]. simpl. auto.
Qed.

Lemma OAuthRefreshToken_other_rejection_witness :
  exists text w',
    OAuthRefreshToken
      (Sample.env (Throw (OtherReason "network down")) Sample.echo Sample.blank_url [])
      (Sample.world (Some "rt-0") ∅)
    = (Throw (Error text (Some (OtherReason "network down"))), w') /\
    text = "Error refreshing token!" /\
    refreshToken (auth w') = Some "rt-0" /\
    tokenStorage w' = Some (Some "rt-0").
Proof.
  destruct (OAuthRefreshToken_other_rejection
              (Sample.env (Throw (OtherReason "network down")) Sample.echo Sample.blank_url [])
              (Sample.world (Some "rt-0") ∅) (OtherReason "network down")
              eq_refl eq_refl eq_refl)
    as (text & w' & Hrun & _ & Hplain & Hauth & Hst & _).
  exists text, w'. rewrite Hauth, Hst.
  split; [exact Hrun|].
  split; [apply Hplain; intros status body; discriminate|].
  split; reflexivity.
Defined.

(** ** Liveness check *)

(** When [#OAuthRefreshToken] returns [true], either no refresh token was
    held and nothing happened, or the refresh endpoint answered and only
    the access token and its expiry may differ. *)
Lemma OAuthRefreshToken_true_inv (env : Env) (w w1 : World) :
  OAuthRefreshToken env w = (Ok true, w1) ->
  (truthy (refreshToken (auth w)) = false /\ w1 = w) \/
  (truthy (refreshToken (auth w)) = true /\
   exists upd, refresh_endpoint env = Ok upd /\
     w1 = with_auth (renewed upd) (log checkAndRefreshAccessToken w)).
Proof.
  unfold OAuthRefreshToken, dbx_checkAndRefreshAccessToken, tokenStorage_saveToken.
  unfold_monad.
  destruct (truthy (refreshToken (auth w))) eqn:Hheld; simpl.
  - destruct (refresh_endpoint env) as [upd|reason|] eqn:Hrej; simpl.
    + intros Hrun. right. split; [reflexivity|]. exists upd. split; [reflexivity|].
      destruct upd as [[tok expiry]|]; simpl in *;
        inversion Hrun; subst; destruct w; reflexivity.
    + destruct (is_invalid_grant reason); simpl.
      * destruct (tokenStorage w); simpl; discriminate.
      * discriminate.
    + discriminate.
  - intros Hrun. inversion Hrun. left. auto.
Qed.

Lemma OAuthCheckToken_after_refresh (env : Env) (w w1 : World) (fresh : bool) :
  OAuthRefreshToken env w = (Ok fresh, w1) ->
  OAuthCheckToken env w =
    if fresh then
      let query := randomUUID env (uuids w1) in
      let w2 := log (checkUser query) (with_uuids S w1) in
      match checkUser_endpoint env query with
      | Ok (Some (Some echo)) => (Ok (String.eqb echo query), w2)
      | Ok (Some None) => (Ok false, w2)
      | Ok None =>
          (Throw (TypeError "Cannot read properties of undefined (reading 'result')"), w2)
      | Throw _ => (Ok false, w2)
      | Hang => (Hang, w2)
      end
    else (Ok false, w1).
Proof.
  intros Hrun. unfold OAuthCheckToken, crypto_randomUUID, dbx_checkUser.
  unfold bind at 1. rewrite Hrun. destruct fresh; [|reflexivity].
  unfold_monad. simpl. destruct (checkUser_endpoint env _) as [[[echo|]|]|reason|]; reflexivity.
Qed.

Lemma OAuthCheckToken_refresh_fails (env : Env) (w w1 : World) (reason : Reason) :
  OAuthRefreshToken env w = (Throw reason, w1) ->
  OAuthCheckToken env w = (Throw reason, w1).
Proof.
  intros Hrun. unfold OAuthCheckToken. unfold bind at 1. now rewrite Hrun.
Qed.

(** A probe that resolves without a result makes the fulfilment handler
    throw, and the rejection handler of the same [then] does not see it. *)
Lemma OAuthCheckToken_result_missing (env : Env) (w w1 : World) :
  OAuthRefreshToken env w = (Ok true, w1) ->
  checkUser_endpoint env (randomUUID env (uuids w1)) = Ok None ->
  exists message, fst (OAuthCheckToken env w) = Throw (TypeError message).
Proof.
  intros Hrun Hprobe. rewrite (OAuthCheckToken_after_refresh _ _ _ _ Hrun). simpl.
  rewrite Hprobe. eexists. reflexivity.
Qed.

(** C9, as the code has it.  A probe that is rejected, or that resolves
    with a result whose echo differs from the probe value, makes
    [#OAuthCheckToken] return [false]; it returns [true] exactly on an
    equal echo.  When the refresh step returns [false] the check returns
    [false] in the state the refresh left, with no probe issued.  An error
    thrown by the refresh step goes through the check as it is; and when
    the probe is rejected or resolves with a result, an error thrown by
    the check is that one. *)
Theorem OAuthCheckToken_probe_failures_give_false (env : Env) (w : World) :
  (forall w1, OAuthRefreshToken env w = (Ok false, w1) ->
     OAuthCheckToken env w = (Ok false, w1)) /\
  (forall w1, OAuthRefreshToken env w = (Ok true, w1) ->
     let query := randomUUID env (uuids w1) in
     (forall reason, checkUser_endpoint env query = Throw reason ->
        fst (OAuthCheckToken env w) = Ok false) /\
     (forall result, checkUser_endpoint env query = Ok (Some result) ->
        fst (OAuthCheckToken env w) =
          Ok (match result with
              | Some echo => String.eqb echo query
              | None => false
              end)) /\
     trace (snd (OAuthCheckToken env w)) = (trace w1 ++ [checkUser query])%list) /\
  (forall reason w1, OAuthRefreshToken env w = (Throw reason, w1) ->
     OAuthCheckToken env w = (Throw reason, w1)) /\
  (forall reason w',
     OAuthCheckToken env w = (Throw reason, w') ->
     (forall w1, OAuthRefreshToken env w = (Ok true, w1) ->
        checkUser_endpoint env (randomUUID env (uuids w1)) <> Ok None) ->
     OAuthRefreshToken env w = (Throw reason, w')).
Proof.
  split; [|split; [|split]].
  - intros w1 Hrun. now rewrite (OAuthCheckToken_after_refresh _ _ _ _ Hrun).
  - intros w1 Hrun query.
    rewrite (OAuthCheckToken_after_refresh _ _ _ _ Hrun). fold query. simpl.
    split; [|split].
    + intros reason Hprobe. now rewrite Hprobe.
    + intros result Hprobe. rewrite Hprobe. now destruct result.
    + destruct (checkUser_endpoint env query) as [[[echo|]|]|reason|]; reflexivity.
  - intros reason w1. apply OAuthCheckToken_refresh_fails.
  - intros reason w' Hthrow Hresult.
    destruct (OAuthRefreshToken env w) as [[fresh|r|] w1] eqn:Hrun.
    + rewrite (OAuthCheckToken_after_refresh _ _ _ _ Hrun) in Hthrow.
      destruct fresh; [|discriminate]. simpl in Hthrow.
      specialize (Hresult w1 eq_refl).
      destruct (checkUser_endpoint env _) as [[[echo|]|]|reason'|];
        try discriminate. now destruct Hresult.
    + now rewrite (OAuthCheckToken_refresh_fails _ _ _ _ Hrun) in Hthrow.
    + unfold OAuthCheckToken in Hthrow. unfold bind at 1 in Hthrow.
      rewrite Hrun in Hthrow. discriminate.
Qed.

Lemma OAuthCheckToken_probe_failures_give_false_witness :
  fst (OAuthCheckToken
         (Sample.env (Ok None) Sample.offline Sample.blank_url [])
         (Sample.world (Some "rt-0") ∅)) = Ok false.
Proof.
  destruct (OAuthCheckToken_probe_failures_give_false
              (Sample.env (Ok None) Sample.offline Sample.blank_url [])
              (Sample.world (Some "rt-0") ∅)) as (_ & Hprobe & _).
  destruct (Hprobe _ eq_refl) as (Hfail & _).
  exact (Hfail (OtherReason "network down") eq_refl).
Defined.

(** C9 as stated fails: a refresh rejection other than [invalid_grant]
    goes through the check to the caller. *)
Lemma OAuthCheckToken_can_throw :
  fst (OAuthCheckToken
         (Sample.env (Throw (OtherReason "network down")) Sample.echo Sample.blank_url [])
         (Sample.world (Some "rt-0") ∅))
  = Throw (Error "Error refreshing token!" (Some (OtherReason "network down"))).
Proof. reflexivity. Qed.

(** ** Authentication when already authenticated *)

Lemma OAuthCheckToken_true_inv (env : Env) (w w2 : World) :
  OAuthCheckToken env w = (Ok true, w2) ->
  exists w1,
    OAuthRefreshToken env w = (Ok true, w1) /\
    w2 = log (checkUser (randomUUID env (uuids w1))) (with_uuids S w1).
Proof.
  intros Hcheck.
  destruct (OAuthRefreshToken env w) as [[fresh|r|] w1] eqn:Hrun.
  - rewrite (OAuthCheckToken_after_refresh _ _ _ _ Hrun) in Hcheck.
    destruct fresh; [|discriminate]. simpl in Hcheck. exists w1. split; [reflexivity|].
    destruct (checkUser_endpoint env _) as [[[echo|]|]|reason|]; now inversion Hcheck.
  - rewrite (OAuthCheckToken_refresh_fails _ _ _ _ Hrun) in Hcheck. discriminate.
  - unfold OAuthCheckToken in Hcheck. unfold bind at 1 in Hcheck.
    rewrite Hrun in Hcheck. discriminate.
Qed.

(** C5, as the code has it.  When the liveness check accepts, [OAuth]
    returns in the state the check left: the only calls are the check's
    own (the refresh, when a refresh token is held, and the probe), none
    opens a redirect channel or exchanges a code, and nothing is saved.
    The refresh token, the PKCE verifier, the injected storage and the
    session storage are as before the call.  The access token and its
    expiry are as before unless the refresh endpoint renewed them during
    the check, in which case they are the renewed ones. *)
Theorem OAuth_authenticated_returns (env : Env) (self : Self)
    (timeout : option Z) (offlineToken popupRedirect : option bool) (w w1 : World) :
  OAuthCheckToken env w = (Ok true, w1) ->
  OAuth env self timeout offlineToken popupRedirect w = (Ok tt, w1) /\
  (exists calls, trace w1 = (trace w ++ calls)%list /\
     forallb (fun c => negb (is_redirect_or_exchange c)) calls = true /\
     (forall t, ~ In (saveToken t) calls)) /\
  refreshToken (auth w1) = refreshToken (auth w) /\
  codeVerifier (auth w1) = codeVerifier (auth w) /\
  tokenStorage w1 = tokenStorage w /\
  sessionStorage w1 = sessionStorage w /\
  page w1 = page w /\
  (truthy (refreshToken (auth w)) = false -> auth w1 = auth w) /\
  (truthy (refreshToken (auth w)) = true ->
     exists upd, refresh_endpoint env = Ok upd /\ auth w1 = renewed upd (auth w)).
Proof.
  intros Hcheck. split.
  - unfold OAuth. unfold bind at 1. now rewrite Hcheck.
  - destruct (OAuthCheckToken_true_inv _ _ _ Hcheck) as (w0 & Hrun & ->).
    destruct (OAuthRefreshToken_true_inv _ _ _ Hrun) as [[Hheld ->]|[Hheld (upd & Hupd & ->)]];
      simpl.
    + split.
      * eexists. split; [reflexivity|]. simpl. repeat split; intros; intros [Hin|[]]; discriminate.
      * rewrite Hheld. repeat split; try reflexivity; discriminate.
    + split.
      * exists [checkAndRefreshAccessToken; checkUser (randomUUID env (uuids w))].
        split; [now rewrite <- app_assoc|]. simpl.
        repeat split; intros; intros [Hin|[Hin|[]]]; discriminate.
      * rewrite Hheld.
        assert (Hkeep : refreshToken (renewed upd (auth w)) = refreshToken (auth w) /\
                        codeVerifier (renewed upd (auth w)) = codeVerifier (auth w))
          by (destruct upd as [[tok expiry]|]; split; reflexivity).
        destruct Hkeep as [Hrt Hcv].
        repeat split; try assumption; try reflexivity; try discriminate.
        intros _. exists upd. split; [assumption | reflexivity].
Qed.

Lemma OAuth_authenticated_returns_witness :
  fst (OAuth (Sample.env (Ok None) Sample.echo Sample.blank_url []) Sample.self
         None None None (Sample.world (Some "rt-0") ∅)) = Ok tt /\
  auth (snd (OAuth (Sample.env (Ok None) Sample.echo Sample.blank_url []) Sample.self
               None None None (Sample.world (Some "rt-0") ∅)))
  = auth (Sample.world (Some "rt-0") ∅).
Proof.
  destruct (OAuth_authenticated_returns
              (Sample.env (Ok None) Sample.echo Sample.blank_url []) Sample.self
              None None None (Sample.world (Some "rt-0") ∅) _ eq_refl)
    as (Hrun & _ & _ & _ & _ & _ & _ & _ & Hrenew).
  rewrite Hrun. split; [reflexivity|].
  destruct (Hrenew eq_refl) as (upd & Hupd & Hauth).
  inversion Hupd; subst upd. exact Hauth.
Defined.

(** C5 as stated fails: with a refresh token held, the refresh made by the
    liveness check may replace the access token and its expiry, and the
    check then accepts. *)
Lemma OAuth_authenticated_renews_access_token :
  let env := Sample.env (Ok (Some ("at-2", 1700003600000))) Sample.echo Sample.blank_url [] in
  let w := with_auth (set_accessToken (Some "at-1")) (Sample.world (Some "rt-0") ∅) in
  fst (OAuthCheckToken env w) = Ok true /\
  fst (OAuth env Sample.self None None None w) = Ok tt /\
  accessToken (auth w) = Some "at-1" /\
  accessToken (auth (snd (OAuth env Sample.self None None None w))) = Some "at-2" /\
  auth (snd (OAuth env Sample.self None None None w)) <> auth w.
Proof.
  repeat split; try reflexivity. discriminate.
Qed.

(** ** Redirect handling *)

Lemma mismatch_message_includes_search (redirectURL : URL) :
  includes (mismatch_message redirectURL) (search redirectURL).
Proof.
  unfold includes, mismatch_message.
  exists ("Mismatched state on redirect, something has gone wrong. The search string was "
          ++ dq), (dq ++ ".").
  now rewrite append_assoc.
Qed.

Lemma strict_equal_spec (OAuthState : string) (redirectState : option JSON) :
  strict_equal (Some OAuthState) redirectState = true <->
  redirectState = Some (JStr OAuthState).
Proof.
  unfold strict_equal. destruct redirectState as [[| | |t| |]|]; split;
    try discriminate; try (intros Heq; inversion Heq; fail).
  - intros Heq. apply String.eqb_eq in Heq. now subst.
  - intros Heq. inversion Heq. apply String.eqb_refl.
Qed.

(** On a [state] parameter that decodes to an object the handler comes
    down to the comparison. *)
Lemma OAuthRedirectHandler_object (env : Env) (OAuthState : option string)
    (resolve : option string -> M unit) (reject : Reason -> M unit)
    (redirectURL : URL) (fields : list (string * JSON)) (w : World) :
  JSON_parse env (template "null" (searchParams_get "state" (searchParams redirectURL)))
    = Some (JObj fields) ->
  OAuthRedirectHandler env OAuthState resolve reject redirectURL w =
    if strict_equal OAuthState (own_property "state" fields)
    then resolve (searchParams_get "code" (searchParams redirectURL)) w
    else reject (Error (mismatch_message redirectURL) None) w.
Proof.
  intros Hparse. unfold OAuthRedirectHandler, JSON_parse_arg, own_state.
  rewrite Hparse. unfold_monad.
  now destruct (strict_equal OAuthState (own_property "state" fields)).
Qed.

(** C3. The redirect's [state] parameter decodes to an object and the
    attempt's promise is pending.  If the object's own [state] is not the
    issued token (a string equal to it), the handler rejects the promise
    with the mismatch error, whose message contains the raw query string;
    the promise is fulfilled exactly when the two are equal, and then with
    the [code] parameter. *)
Theorem OAuthRedirectHandler_state_check (env : Env) (OAuthState : string)
    (redirectURL : URL) (fields : list (string * JSON)) (w : World) :
  JSON_parse env (template "null" (searchParams_get "state" (searchParams redirectURL)))
    = Some (JObj fields) ->
  OAuthPromise (page w) = Pending ->
  let run := OAuthRedirectHandler env (Some OAuthState) OAuthResolve OAuthReject redirectURL w in
  fst run = Ok tt /\
  (own_property "state" fields <> Some (JStr OAuthState) ->
     OAuthPromise (page (snd run)) = Rejected (Error (mismatch_message redirectURL) None) /\
     includes (mismatch_message redirectURL) (search redirectURL)) /\
  (forall value,
     OAuthPromise (page (snd run)) = Fulfilled value <->
     own_property "state" fields = Some (JStr OAuthState) /\
     value = searchParams_get "code" (searchParams redirectURL)).
Proof.
  intros Hparse Hpending run. subst run.
  rewrite (OAuthRedirectHandler_object _ _ _ _ _ _ _ Hparse).
  unfold OAuthResolve, OAuthReject, effect, with_page, settle.
  destruct (strict_equal (Some OAuthState) (own_property "state" fields)) eqn:Heq;
    rewrite Hpending; simpl.
  - apply strict_equal_spec in Heq.
    split; [reflexivity|]. split.
    + intros Hne. now destruct Hne.
    + intros value. split.
      * intros Hful. inversion Hful. auto.
      * intros [_ ->]. reflexivity.
  - assert (Hne : own_property "state" fields <> Some (JStr OAuthState)).
    { intros Habs. apply strict_equal_spec in Habs. congruence. }
    split; [reflexivity|]. split.
    + intros _. split; [reflexivity | apply mismatch_message_includes_search].
    + intros value. split; [discriminate|]. intros [Habs _]. now destruct Hne.
Qed.

Lemma OAuthRedirectHandler_state_check_witness :
  OAuthPromise
    (page (snd (OAuthRedirectHandler
                  (Sample.env (Ok None) Sample.echo Sample.blank_url [])
                  (Some "uuid-0") OAuthResolve OAuthReject Sample.forged_url
                  (Sample.world None ∅))))
  = Rejected (Error (mismatch_message Sample.forged_url) None).
Proof.
  destruct (OAuthRedirectHandler_state_check
              (Sample.env (Ok None) Sample.echo Sample.blank_url [])
              "uuid-0" Sample.forged_url [("state", JStr "forged")]
              (Sample.world None ∅) eq_refl eq_refl) as (_ & Hreject & _).
  apply Hreject. discriminate.
Defined.

(** ** Navigation channel *)

Lemma storage_key_distinct (self : Self) :
  storage_key self "OAuthState" <> storage_key self "CodeVerifier".
Proof. unfold storage_key. intros Heq. inversion Heq. Qed.

(** A fresh navigation attempt leaves the state token and the verifier in
    the session storage, under the keys the return reads, and yields no
    code. *)
Lemma OAuthNavigationRedirect_persists (self : Self) (OAuthState OAuthURL : string)
    (w : World) :
  let run := OAuthNavigationRedirect self OAuthState OAuthURL w in
  fst run = Ok None /\
  sessionStorage (snd run) !! storage_key self "OAuthState" = Some OAuthState /\
  sessionStorage (snd run) !! storage_key self "CodeVerifier"
    = Some (ToString (getCodeVerifier (auth w))) /\
  trace (snd run) = (trace w ++ [location_replace OAuthURL])%list /\
  auth (snd run) = auth w.
Proof.
  unfold OAuthNavigationRedirect. unfold_monad. cbn -[storage_key].
  repeat split.
  - rewrite lookup_insert_ne by (apply not_eq_sym, storage_key_distinct).
    apply lookup_insert_eq.
  - apply lookup_insert_eq.
Qed.

(** C8. The page URL carries [code] and [state]; the session storage holds
    the state token and the PKCE verifier under the keys qualified by the
    app identifier; the URL's [state] decodes to an object whose [state] is
    the stored token.  Then [#OAuthGetCode] returns the URL's [code] at
    once: the promise it awaits is already fulfilled with it, the verifier
    is back in the authorization context, and no call at all (hence no
    network call) has been made. *)
Theorem OAuthGetCode_navigation_return (env : Env) (self : Self)
    (timeout : Z) (offlineToken popupRedirect : bool) (w : World)
    (OAuthState CodeVerifier code : string) (fields : list (string * JSON)) :
  searchParams_get "code" (searchParams (location env)) = Some code ->
  searchParams_has "state" (searchParams (location env)) = true ->
  sessionStorage w !! storage_key self "OAuthState" = Some OAuthState ->
  sessionStorage w !! storage_key self "CodeVerifier" = Some CodeVerifier ->
  JSON_parse env (template "null" (searchParams_get "state" (searchParams (location env))))
    = Some (JObj fields) ->
  own_property "state" fields = Some (JStr OAuthState) ->
  let run := OAuthGetCode env self timeout offlineToken popupRedirect w in
  fst run = Ok (Some code) /\
  OAuthPromise (page (snd run)) = Fulfilled (Some code) /\
  codeVerifier (auth (snd run)) = Some CodeVerifier /\
  trace (snd run) = trace w /\
  accessToken (auth (snd run)) = accessToken (auth w) /\
  refreshToken (auth (snd run)) = refreshToken (auth w) /\
  sessionStorage (snd run) = sessionStorage w.
Proof.
  intros Hcode Hstate Hst Hcv Hparse Hown run.
  assert (Hrun : exists p,
            run = (Ok (Some code),
                   with_page (fun _ => p) (with_auth (set_codeVerifier (Some CodeVerifier)) w))
            /\ OAuthPromise p = Fulfilled (Some code)).
  { subst run. unfold OAuthGetCode.
    assert (Hhas : searchParams_has "code" (searchParams (location env)) = true)
      by (unfold searchParams_has; now rewrite Hcode).
    rewrite Hhas, Hstate. cbn [andb].
    unfold navigationRedirectHandler, Promise_withResolvers.
    unfold bind at 1. unfold get at 1. rewrite Hst.
    unfold bind at 1. unfold get at 1. rewrite Hcv.
    unfold bind at 1. unfold effect at 1.
    unfold bind at 1. unfold effect at 1.
    unfold bind at 1.
    rewrite (OAuthRedirectHandler_object _ _ _ _ _ _ _ Hparse), Hown.
    assert (Heq : strict_equal (Some OAuthState) (Some (JStr OAuthState)) = true)
      by (now apply strict_equal_spec).
    rewrite Heq, Hcode. simpl. eexists. split; reflexivity. }
  destruct Hrun as (p & -> & Hp). simpl. rewrite Hp. repeat split; reflexivity.
Qed.

Lemma OAuthGetCode_navigation_return_witness :
  let session : gmap string string :=
    <["OAuthState-demo" := "uuid-0"]> (<["CodeVerifier-demo" := "verifier-1"]> ∅) in
  let run := OAuthGetCode (Sample.env (Ok None) Sample.echo Sample.redirect_url [])
               Sample.self 120 true false (Sample.world None session) in
  fst run = Ok (Some "ABC") /\
  codeVerifier (auth (snd run)) = Some "verifier-1" /\
  trace (snd run) = [].
Proof.
  intros session run.
  destruct (OAuthGetCode_navigation_return
              (Sample.env (Ok None) Sample.echo Sample.redirect_url [])
              Sample.self 120 true false (Sample.world None session)
              "uuid-0" "verifier-1" "ABC"
              [("state", JStr "uuid-0"); ("appId", JStr "demo")]
              eq_refl eq_refl eq_refl eq_refl eq_refl eq_refl)
    as (Hres & _ & Hcv & Htrace & _).
  repeat split; assumption.
Defined.

(** ** Code exchange *)

(** C10. The liveness check refuses, a code is obtained, the exchange
    succeeds and the offline-token mode is in force.  Then [OAuth] records
    as expiry [Date.now() + expires_in]: the endpoint's [expires_in] is added
    as it is to the millisecond clock, so the recorded expiry is
    [expires_in] time units of that clock after the exchange, and not
    [1000 * expires_in]. *)
Theorem OAuth_offline_expiry (env : Env) (self : Self)
    (timeout : option Z) (offlineToken popupRedirect : option bool)
    (w w1 w2 : World) (OAuthCode : option string) (tokenInfo : TokenInfo) :
  OAuthCheckToken env w = (Ok false, w1) ->
  default (useOfflineToken self) offlineToken = true ->
  OAuthGetCode env self (default OAUTH_TIMEOUT timeout) true
    (default (usePopupRedirect self) popupRedirect) w1 = (Ok OAuthCode, w2) ->
  truthy OAuthCode = true \/ default (usePopupRedirect self) popupRedirect = true ->
  exchange_endpoint env (redirectURI self) OAuthCode = Ok tokenInfo ->
  let run := OAuth env self timeout offlineToken popupRedirect w in
  fst run = Ok tt /\
  accessTokenExpiresAt (auth (snd run)) = Some (Date_now env + expires_in tokenInfo) /\
  (forall expiry, accessTokenExpiresAt (auth (snd run)) = Some expiry ->
     expiry - Date_now env = expires_in tokenInfo) /\
  (expires_in tokenInfo <> 0 ->
     accessTokenExpiresAt (auth (snd run))
       <> Some (Date_now env + 1000 * expires_in tokenInfo)) /\
  accessToken (auth (snd run)) = Some (access_token tokenInfo) /\
  refreshToken (auth (snd run)) = refresh_token tokenInfo.
Proof.
  intros Hcheck Hoffline Hcode Hgo Hexchange run.
  assert (Hrun : exists w3,
            run = (Ok tt, w3) /\
            auth w3 = set_accessTokenExpiresAt (Some (Date_now env + expires_in tokenInfo))
                        (set_refreshToken (refresh_token tokenInfo)
                           (set_accessToken (Some (access_token tokenInfo)) (auth w2)))).
  { subst run. unfold OAuth. unfold bind at 1. rewrite Hcheck.
    rewrite Hoffline. unfold bind at 1. unfold catch at 1. rewrite Hcode.
    assert (Hskip : negb (truthy OAuthCode)
                    && negb (default (usePopupRedirect self) popupRedirect) = false).
    { destruct Hgo as [-> | ->]; [reflexivity | apply andb_false_r]. }
    rewrite Hskip. unfold OAuthGetTokenInfo, tokenStorage_saveToken. unfold_monad.
    simpl. rewrite Hexchange. simpl.
    destruct (tokenStorage w2); simpl; eexists; split; reflexivity. }
  destruct Hrun as (w3 & -> & Hauth). simpl. rewrite Hauth. simpl.
  repeat split; try reflexivity.
  - intros expiry Hexp. inversion Hexp. lia.
  - intros Hnz Habs. inversion Habs. lia.
Qed.

Lemma OAuth_offline_expiry_witness :
  let session : gmap string string :=
    <["OAuthState-demo" := "uuid-0"]> (<["CodeVerifier-demo" := "verifier-1"]> ∅) in
  let run := OAuth (Sample.env (Ok None) Sample.offline Sample.redirect_url [])
               Sample.self None None (Some false) (Sample.world None session) in
  fst run = Ok tt /\
  accessTokenExpiresAt (auth (snd run)) = Some (1700000000000 + 14400).
Proof.
  intros session run.
  destruct (OAuth_offline_expiry
              (Sample.env (Ok None) Sample.offline Sample.redirect_url [])
              Sample.self None None (Some false) (Sample.world None session)
              _ _ (Some "ABC") Sample.tokens
              eq_refl eq_refl eq_refl (or_introl eq_refl) eq_refl)
    as (Hres & Hexp & _).
  split; assumption.
Defined.

(** The earlier revision records the expiry in the same way. *)
Lemma legacy_OAuth_expiry (env : Env) (self : Self) (timeout : option Z)
    (w w1 w2 : World) (token OAuthCode : option string) (tokenInfo : TokenInfo) :
  Esm.OAuthRefreshedToken env w = (Ok token, w1) ->
  truthy token = false ->
  Esm.OAuthGetCode env self (default OAUTH_TIMEOUT timeout) w1 = (Ok OAuthCode, w2) ->
  exchange_endpoint env (redirectURI self) OAuthCode = Ok tokenInfo ->
  let run := Esm.OAuth env self timeout w in
  fst run = Ok tt /\
  accessTokenExpiresAt (auth (snd run)) = Some (Date_now env + expires_in tokenInfo).
Proof.
  intros Hrefresh Hstale Hcode Hexchange run.
  assert (Hrun : exists w3,
            run = (Ok tt, w3) /\
            accessTokenExpiresAt (auth w3) = Some (Date_now env + expires_in tokenInfo)).
  { subst run. unfold Esm.OAuth. unfold bind at 1. rewrite Hrefresh, Hstale.
    unfold bind at 1. unfold catch at 1. rewrite Hcode.
    unfold OAuthGetTokenInfo, tokenStorage_saveToken. unfold_monad.
    simpl. rewrite Hexchange. simpl.
    destruct (tokenStorage w2); simpl; eexists; split; reflexivity. }
  destruct Hrun as (w3 & -> & Hexpiry). split; [reflexivity | exact Hexpiry].
Qed.

(** ** Uploads *)

Lemma logs_nil (w : World) : logs [] w = w.
Proof. destruct w. unfold logs. simpl. now rewrite app_nil_r. Qed.

Lemma logs_log (c : Call) (calls : list Call) (w : World) :
  logs calls (log c w) = logs (c :: calls) w.
Proof. unfold logs, log. simpl. now rewrite <- app_assoc. Qed.

Lemma Math_ceil_div_spec (S : Z) :
  0 <= S ->
  let n := Math_ceil_div S CHUNK_SIZE in
  0 <= n /\ (n - 1) * CHUNK_SIZE < S <= n * CHUNK_SIZE.
Proof.
  intros HS n. subst n. unfold Math_ceil_div, CHUNK_SIZE.
  pose proof (Z.div_mod (- S) (12 * 1024 * 1024) ltac:(lia)) as Hdm.
  pose proof (Z.mod_pos_bound (- S) (12 * 1024 * 1024) ltac:(lia)) as Hb.
  lia.
Qed.

(** The loop over the chunks, when every append is accepted: one append per
    index, in index order. *)
Lemma for_in_appends (env : Env) (session : string) (n : nat) :
  forall (start : nat) (w : World),
    (forall i, (start <= i < start + n)%nat ->
       sessionAppend_endpoint env (Z.of_nat i * CHUNK_SIZE) = Ok tt) ->
    for_in (fun chunkIdx chunk =>
              let offset := Z.of_nat chunkIdx * CHUNK_SIZE in
              effect (log (filesUploadSessionAppendV2 session offset
                             (fst chunk) (snd chunk))) ;;;
              answer (sessionAppend_endpoint env offset))
           start
           (map (fun chunkIdx : nat =>
                   (Z.of_nat chunkIdx * CHUNK_SIZE, (Z.of_nat chunkIdx + 1) * CHUNK_SIZE))
                (seq start n)) w
    = (Ok tt, logs (map (append_call session) (seq start n)) w).
Proof.
  induction n as [|n IH]; intros start w Hok; simpl.
  - now rewrite logs_nil.
  - unfold bind at 1. unfold bind at 1. unfold effect at 1. unfold answer at 1.
    rewrite (Hok start ltac:(lia)). rewrite IH by (intros i Hi; apply Hok; lia).
    now rewrite logs_log.
Qed.

Lemma offsets_of_sorted (n : nat) : StronglySorted Z.lt (offsets_of n).
Proof.
  unfold offsets_of. generalize 0%nat as start.
  induction n as [|n IH]; intros start; simpl; constructor.
  - apply IH.
  - apply List.Forall_forall. intros offset Hin. apply in_map_iff in Hin.
    destruct Hin as (i & <- & Hi). apply in_seq in Hi. unfold CHUNK_SIZE. lia.
Qed.

Lemma offsets_of_lookup (n i : nat) :
  (i < n)%nat -> nth_error (offsets_of n) i = Some (Z.of_nat i * CHUNK_SIZE).
Proof.
  intros Hi. unfold offsets_of. rewrite nth_error_map, nth_error_seq.
  destruct (Nat.ltb_spec i n); [reflexivity | lia].
Qed.

(** C6. Session-start answers with a handle and every append is accepted.
    Then the chunked upload of a file of size [S] makes, in this order:
    session-start; one append per chunk index [0 .. n-1] where [n] is
    [ceil(S / CHUNK_SIZE)] (the integer with [(n-1) * CHUNK_SIZE < S <=
    n * CHUNK_SIZE]), the [i]-th at offset [i * CHUNK_SIZE] with that handle;
    one finish at offset [S] with that handle.  The offsets are strictly
    increasing, and the chunk size is [12 * 1024 * 1024]. *)
Theorem uploadLargeFile_protocol (env : Env) (file : File) (session : string) (w : World) :
  0 <= size file ->
  sessionStart_endpoint env = Ok session ->
  (forall i : nat, sessionAppend_endpoint env (Z.of_nat i * CHUNK_SIZE) = Ok tt) ->
  let n := Z.to_nat (Math_ceil_div (size file) CHUNK_SIZE) in
  let run := uploadLargeFile env file w in
  fst run = sessionFinish_endpoint env /\
  trace (snd run) =
    (trace w ++ [filesUploadSessionStart]
       ++ map (append_call session) (seq 0 n)
       ++ [filesUploadSessionFinish session (size file) ("/" ++ name file)])%list /\
  map call_offset (map (append_call session) (seq 0 n)) = map Some (offsets_of n) /\
  length (offsets_of n) = n /\
  (Z.of_nat n - 1) * CHUNK_SIZE < size file <= Z.of_nat n * CHUNK_SIZE /\
  StronglySorted Z.lt (offsets_of n) /\
  (forall i, (i < n)%nat -> nth_error (offsets_of n) i = Some (Z.of_nat i * CHUNK_SIZE)) /\
  CHUNK_SIZE = 12 * 1024 * 1024.
Proof.
  intros Hsize Hstart Happend n run.
  assert (Hrun : run = (sessionFinish_endpoint env,
                        log (filesUploadSessionFinish session (size file) ("/" ++ name file))
                          (logs (map (append_call session) (seq 0 n))
                             (log filesUploadSessionStart w)))).
  { subst run. unfold uploadLargeFile, fileChunks. fold n.
    unfold bind at 1. unfold bind at 1. unfold effect at 1. unfold answer at 1.
    rewrite Hstart. unfold bind at 1.
    rewrite for_in_appends by (intros i _; apply Happend).
    unfold_monad. now destruct (sessionFinish_endpoint env). }
  rewrite Hrun. simpl.
  destruct (Math_ceil_div_spec (size file) Hsize) as [Hn Hceil].
  repeat split.
  - now rewrite <- !app_assoc.
  - unfold offsets_of. rewrite !map_map. reflexivity.
  - unfold offsets_of. now rewrite length_map, length_seq.
  - subst n. rewrite Z2Nat.id by exact Hn. apply Hceil.
  - subst n. rewrite Z2Nat.id by exact Hn. apply Hceil.
  - apply offsets_of_sorted.
  - intros i Hi. now apply offsets_of_lookup.
Qed.

Lemma uploadLargeFile_protocol_witness :
  trace (snd (uploadLargeFile (Sample.env (Ok None) Sample.echo Sample.blank_url [])
                {| name := "a.bin"; size := 30000000 |} (Sample.world None ∅)))
  = [filesUploadSessionStart;
     filesUploadSessionAppendV2 "session-1" 0 0 12582912;
     filesUploadSessionAppendV2 "session-1" 12582912 12582912 25165824;
     filesUploadSessionAppendV2 "session-1" 25165824 25165824 37748736;
     filesUploadSessionFinish "session-1" 30000000 "/a.bin"].
Proof.
  destruct (uploadLargeFile_protocol
              (Sample.env (Ok None) Sample.echo Sample.blank_url [])
              {| name := "a.bin"; size := 30000000 |} "session-1" (Sample.world None ∅)
              ltac:(simpl; lia) eq_refl (fun _ => eq_refl))
    as (_ & Htrace & _).
  rewrite Htrace. reflexivity.
Defined.

(** Whatever the endpoints answer, the loop over the chunks only adds
    session calls to the trace. *)
Lemma for_in_session_calls (env : Env) (session : string) (chunks : list (Z * Z)) :
  forall (start : nat) (w : World),
    exists calls,
      trace (snd (for_in (fun chunkIdx chunk =>
                            let offset := Z.of_nat chunkIdx * CHUNK_SIZE in
                            effect (log (filesUploadSessionAppendV2 session offset
                                           (fst chunk) (snd chunk))) ;;;
                            answer (sessionAppend_endpoint env offset))
                         start chunks w))
      = (trace w ++ calls)%list /\
      forallb is_session_call calls = true.
Proof.
  induction chunks as [|chunk chunks IH]; intros start w; simpl.
  - exists []. now rewrite app_nil_r.
  - unfold bind at 1. unfold bind at 1. unfold effect at 1. unfold answer at 1.
    destruct (sessionAppend_endpoint env (Z.of_nat start * CHUNK_SIZE)) as [[]|reason|].
    + destruct (IH (S start)
                  (log (filesUploadSessionAppendV2 session (Z.of_nat start * CHUNK_SIZE)
                          (fst chunk) (snd chunk)) w)) as (calls & Htrace & Hall).
      exists (filesUploadSessionAppendV2 session (Z.of_nat start * CHUNK_SIZE)
                (fst chunk) (snd chunk) :: calls).
      split; [|exact Hall].
      etransitivity; [exact Htrace|]. simpl. now rewrite <- app_assoc.
    + eexists [_]. simpl. split; reflexivity.
    + eexists [_]. simpl. split; reflexivity.
Qed.

(** The chunked path opens with session-start and makes session calls only. *)
Lemma uploadLargeFile_session_calls (env : Env) (file : File) (w : World) :
  exists calls,
    trace (snd (uploadLargeFile env file w))
      = (trace w ++ filesUploadSessionStart :: calls)%list /\
    forallb is_session_call calls = true.
Proof.
  unfold uploadLargeFile.
  unfold bind at 1. unfold bind at 1. unfold effect at 1. unfold answer at 1.
  destruct (sessionStart_endpoint env) as [session|reason|];
    try (exists []; split; reflexivity).
  unfold bind at 1.
  destruct (for_in_session_calls env session (fileChunks file) 0
              (log filesUploadSessionStart w)) as (calls & Htrace & Hall).
  destruct (for_in _ _ _ _) as [[[]|reason|] w1]; simpl in Htrace.
  - unfold_monad. simpl.
    exists (calls ++ [filesUploadSessionFinish session (size file) ("/" ++ name file)])%list.
    split.
    + destruct (sessionFinish_endpoint env); simpl; rewrite Htrace;
        simpl; now rewrite <- !app_assoc.
    + rewrite forallb_app, Hall. reflexivity.
  - exists calls. simpl. rewrite Htrace. simpl. now rewrite <- app_assoc.
  - exists calls. simpl. rewrite Htrace. simpl. now rewrite <- app_assoc.
Qed.

Lemma catch_trace {A} (m : M A) (message : string) (w : World) :
  trace (snd (catch m (rethrow message) w)) = trace (snd (m w)).
Proof. unfold catch, rethrow, throw. now destruct (m w) as [[a|r|] w']. Qed.

(** [uploadFile] takes the single-request path below the limit and the
    chunked path from the limit on. *)
Lemma uploadFile_dispatch (env : Env) (self : Self) (file : File)
    (timeout : option Z) (w w1 : World) :
  OAuth env self timeout None None w = (Ok tt, w1) ->
  uploadFile env self file timeout w =
    catch (if size file <? FILE_SIZE_LIMIT
           then uploadSmallFile env file "/"
           else uploadLargeFile env file)
          (rethrow "Error uploading file [object File].") w1.
Proof.
  intros Hauth. unfold uploadFile. unfold bind at 1. now rewrite Hauth.
Qed.

(** C7. After authentication [uploadFile] compares the size with the limit
    [150 * 1024 * 1024]: below it the calls are those of the single-request
    path, from it on those of the chunked path.  A file of
    [150*1024*1024 - 1] bytes is sent by one [filesUpload] request and
    nothing else; for a file of [150*1024*1024 + 1] bytes the first call is
    session-start and every call is a session call (no [filesUpload]). *)
Theorem uploadFile_threshold (env : Env) (self : Self) (filename : string)
    (timeout : option Z) (w w1 : World) :
  OAuth env self timeout None None w = (Ok tt, w1) ->
  let below := {| name := filename; size := 150 * 1024 * 1024 - 1 |} in
  let above := {| name := filename; size := 150 * 1024 * 1024 + 1 |} in
  (forall file,
     trace (snd (uploadFile env self file timeout w)) =
       if size file <? 150 * 1024 * 1024
       then trace (snd (uploadSmallFile env file "/" w1))
       else trace (snd (uploadLargeFile env file w1))) /\
  trace (snd (uploadFile env self below timeout w))
    = (trace w1 ++ [filesUpload ("/" ++ filename) below])%list /\
  exists calls,
    trace (snd (uploadFile env self above timeout w))
      = (trace w1 ++ filesUploadSessionStart :: calls)%list /\
    forallb is_session_call calls = true.
Proof.
  intros Hauth below above.
  assert (Hdispatch : forall file,
            trace (snd (uploadFile env self file timeout w)) =
              if size file <? 150 * 1024 * 1024
              then trace (snd (uploadSmallFile env file "/" w1))
              else trace (snd (uploadLargeFile env file w1))).
  { intros file. rewrite (uploadFile_dispatch _ _ _ _ _ _ Hauth), catch_trace.
    change FILE_SIZE_LIMIT with (150 * 1024 * 1024).
    now destruct (size file <? 150 * 1024 * 1024). }
  split; [exact Hdispatch|]. split.
  - rewrite Hdispatch. change (size below <? 150 * 1024 * 1024) with true. cbv iota.
    unfold uploadSmallFile. unfold_monad. simpl.
    now destruct (filesUpload_endpoint env ("/" ++ filename)).
  - rewrite Hdispatch. change (size above <? 150 * 1024 * 1024) with false. cbv iota.
    apply uploadLargeFile_session_calls.
Qed.

Lemma uploadFile_threshold_witness :
  let env := Sample.env (Ok None) Sample.echo Sample.blank_url [] in
  trace (snd (uploadFile env Sample.self
                {| name := "a.bin"; size := 150 * 1024 * 1024 - 1 |} None
                (Sample.world None ∅)))
  = [checkUser "uuid-0";
     filesUpload "/a.bin" {| name := "a.bin"; size := 150 * 1024 * 1024 - 1 |}].
Proof.
  intros env.
  destruct (uploadFile_threshold env Sample.self "a.bin" None (Sample.world None ∅) _ eq_refl)
    as (_ & Hbelow & _).
  rewrite Hbelow. reflexivity.
Defined.

(** ** Popup channel *)

Lemma handlePopupRedirect_invariant (OAuthState : string) (timeout : Z) (w : World) :
  microtasks (page w) = [] ->
  fst (handlePopupRedirect OAuthState timeout w) = Ok tt /\
  attempt_invariant OAuthState timeout
    (count_calls is_popup_close w) (count_calls is_removeEventListener w)
    (snd (handlePopupRedirect OAuthState timeout w)).
Proof.
  intros Hmicro. destruct w as [a ts ss u [P R Mq L T] tr]. simpl in Hmicro. subst Mq.
  unfold attempt_invariant, count_calls. simpl.
  rewrite !List.filter_app. simpl. rewrite !app_nil_r. repeat split; reflexivity.
Qed.

Lemma dispatch_settled (env : Env) (OAuthState : string) (timeout : Z)
    (closes removals : nat) (ev : Event) (w : World) :
  attempt_invariant OAuthState timeout closes removals w ->
  settled w = true ->
  exists w',
    dispatch env ev w = (Ok tt, w') /\
    attempt_invariant OAuthState timeout closes removals w' /\
    OAuthPromise (page w') = OAuthPromise (page w) /\
    trace w' = trace w.
Proof.
  intros [Hmicro Hinv] Hsettled. unfold settled in Hsettled.
  destruct w as [a ts ss u [P R Mq L T] tr]. simpl in *. subst Mq.
  destruct P as [|value|reason]; [discriminate| |];
    destruct Hinv as (Hterm & -> & -> & Htimer & Hclose & Hremove);
    destruct ev as [m|]; simpl.
  all: try (eexists; split; [reflexivity|]; unfold attempt_invariant; simpl; auto 10; fail).
  all: destruct Htimer as [-> | ->]; unfold_monad; simpl.
  all: eexists; (split; [reflexivity|]); unfold attempt_invariant; simpl; auto 10.
Qed.

Lemma dispatch_pending (env : Env) (OAuthState : string) (timeout : Z)
    (closes removals : nat) (ev : Event) (w : World) :
  attempt_invariant OAuthState timeout closes removals w ->
  settled w = false ->
  exists w',
    dispatch env ev w = (Ok tt, w') /\
    attempt_invariant OAuthState timeout closes removals w' /\
    (ev = TimerEvent -> settled w' = true).
Proof.
  intros [Hmicro Hinv] Hpending. unfold settled in Hpending.
  destruct w as [a ts ss u [P R Mq L T] tr]. simpl in *. subst Mq.
  destruct P as [|value|reason]; try discriminate.
  destruct Hinv as (-> & -> & -> & Hclose & Hremove).
  unfold count_calls in *. simpl in *.
  destruct ev as [[[href|] source]|].
  - (* a message with the redirect marker *)
    unfold dispatch, run_handler, popupRedirectHandler, uncaught, run_microtasks.
    cbn [OAuthRedirect from_popup].
    destruct source.
    + destruct (URL_parse env href) as [redirectURL|] eqn:Hurl.
      * unfold OAuthRedirectHandler, JSON_parse_arg.
        destruct (JSON_parse env _) as [stateObj|] eqn:Hparse.
        -- destruct stateObj as [|b|n|s|items|fields]; unfold own_state.
           all: unfold_monad; cbn -[mismatch_message].
           all: try (eexists; split; [reflexivity|]; split; [|discriminate];
                     unfold attempt_invariant, count_calls; cbn -[mismatch_message];
                     rewrite ?List.filter_app; cbn -[mismatch_message];
                     rewrite ?app_nil_r, ?length_app; cbn -[mismatch_message];
                     repeat split;
                     first [ lia | reflexivity | (right; reflexivity)
                           | apply code_resolution | apply mismatch_rejection ]; fail).
           destruct (own_property "state" fields) as [[| | |t| |]|];
             try destruct (OAuthState =? t)%string.
           all: cbn -[mismatch_message].
           all: eexists; (split; [reflexivity|]); (split; [|discriminate]);
                unfold attempt_invariant, count_calls; cbn -[mismatch_message];
                rewrite ?List.filter_app; cbn -[mismatch_message];
                rewrite ?app_nil_r, ?length_app; cbn -[mismatch_message];
                repeat split;
                first [ lia | reflexivity | (right; reflexivity)
                      | apply code_resolution | apply mismatch_rejection ].
        -- unfold_monad. cbn. eexists. split; [reflexivity|]. split; [|discriminate].
           unfold attempt_invariant, count_calls. cbn. auto 10.
      * unfold_monad. cbn. eexists. split; [reflexivity|]. split; [|discriminate].
        unfold attempt_invariant, count_calls. cbn. auto 10.
    + unfold_monad. cbn. eexists. split; [reflexivity|]. split; [|discriminate].
      unfold attempt_invariant, count_calls. cbn. auto 10.
  - (* a message without the marker *)
    unfold dispatch, run_handler, popupRedirectHandler, uncaught, run_microtasks.
    unfold_monad. cbn. eexists. split; [reflexivity|]. split; [|discriminate].
    unfold attempt_invariant, count_calls. cbn. auto 10.
  - (* the timer *)
    unfold dispatch, run_handler, popupTimeoutHandler, uncaught, run_microtasks, OAuthReject.
    unfold_monad. cbn -[pretty]. eexists. split; [reflexivity|]. split; [|reflexivity].
    unfold attempt_invariant, count_calls. cbn -[pretty].
    rewrite ?List.filter_app. cbn -[pretty]. rewrite ?app_nil_r, ?length_app. cbn -[pretty].
    repeat split; first [ lia | reflexivity | (left; reflexivity) | apply timeout_rejection ].
Qed.

Lemma run_events_invariant (env : Env) (OAuthState : string) (timeout : Z)
    (closes removals : nat) (evs : list Event) :
  forall w,
    attempt_invariant OAuthState timeout closes removals w ->
    exists w',
      run_events env evs w = (Ok tt, w') /\
      attempt_invariant OAuthState timeout closes removals w' /\
      (settled w = true ->
         OAuthPromise (page w') = OAuthPromise (page w) /\ trace w' = trace w) /\
      (In TimerEvent evs -> settled w' = true).
Proof.
  induction evs as [|ev evs IH]; intros w Hinv.
  - exists w. simpl. split; [reflexivity|]. split; [assumption|].
    split; [auto | intros []].
  - simpl. unfold bind at 1. destruct (settled w) eqn:Hsettled.
    + destruct (dispatch_settled env _ _ _ _ ev w Hinv Hsettled)
        as (w1 & -> & Hinv1 & Hsame & Htrace).
      destruct (IH w1 Hinv1) as (w' & -> & Hinv' & Hkeep & _).
      assert (Hsettled1 : settled w1 = true) by (unfold settled in *; now rewrite Hsame).
      destruct (Hkeep Hsettled1) as [Hp Ht].
      exists w'. split; [reflexivity|]. split; [assumption|]. split.
      * intros _. split; congruence.
      * intros _. unfold settled in *. now rewrite Hp, Hsame.
    + destruct (dispatch_pending env _ _ _ _ ev w Hinv Hsettled)
        as (w1 & -> & Hinv1 & Htimer).
      destruct (IH w1 Hinv1) as (w' & -> & Hinv' & Hkeep & Hlater).
      exists w'. split; [reflexivity|]. split; [assumption|]. split; [discriminate|].
      intros [->|Hin]; [|now apply Hlater].
      specialize (Htimer eq_refl). destruct (Hkeep Htimer) as [Hp _].
      unfold settled in *. now rewrite Hp.
Qed.

(** C4. An attempt is set up by [#handlePopupRedirect] and the event loop
    then delivers any messages and the timer, in any order ([evs], then
    [later]).  At any point the promise is pending and cleanup has not
    run, or it is settled by exactly one of the three terminal events, the
    popup has been closed once and the listener removed once; from then on
    no event changes the outcome or causes another call.  Once the timer
    has fired the attempt is settled. *)
Theorem popup_attempt_settles_once (env : Env) (OAuthState : string) (timeout : Z)
    (w : World) (evs later : list Event) :
  microtasks (page w) = [] ->
  let w0 := snd (handlePopupRedirect OAuthState timeout w) in
  let w1 := snd (run_events env evs w0) in
  let w2 := snd (run_events env later w1) in
  (if settled w1 then
     Terminal timeout (OAuthPromise (page w1)) /\
     count_calls is_popup_close w1 = S (count_calls is_popup_close w) /\
     count_calls is_removeEventListener w1 = S (count_calls is_removeEventListener w) /\
     message_listener (page w1) = None /\
     OAuthPromise (page w2) = OAuthPromise (page w1) /\
     trace w2 = trace w1
   else
     count_calls is_popup_close w1 = count_calls is_popup_close w /\
     count_calls is_removeEventListener w1 = count_calls is_removeEventListener w /\
     message_listener (page w1) = Some (redirectHandler OAuthState)) /\
  (In TimerEvent evs -> settled w1 = true).
Proof.
  intros Hmicro w0 w1 w2.
  destruct (handlePopupRedirect_invariant OAuthState timeout w Hmicro) as [_ Hinv0].
  fold w0 in Hinv0.
  destruct (run_events_invariant env _ _ _ _ evs w0 Hinv0) as (w1' & Hrun1 & Hinv1 & _ & Htimer).
  assert (Hw1 : w1 = w1') by (subst w1; now rewrite Hrun1). rewrite <- Hw1 in *.
  destruct (run_events_invariant env _ _ _ _ later w1 Hinv1) as (w2' & Hrun2 & _ & Hkeep & _).
  assert (Hw2 : w2 = w2') by (subst w2; now rewrite Hrun2). rewrite <- Hw2 in *.
  split; [|exact Htimer].
  destruct (settled w1) eqn:Hsettled.
  - destruct (Hkeep eq_refl) as [Hp Ht].
    destruct Hinv1 as [_ Hinv1]. unfold settled in Hsettled.
    destruct (OAuthPromise (page w1)); [discriminate| |];
      destruct Hinv1 as (Hterm & _ & Hl & _ & Hc & Hr); auto 10.
  - destruct Hinv1 as [_ Hinv1]. unfold settled in Hsettled.
    destruct (OAuthPromise (page w1)); try discriminate.
    destruct Hinv1 as (_ & Hl & _ & Hc & Hr). auto.
Qed.

Lemma popup_attempt_settles_once_witness :
  let env := Sample.env (Ok None) Sample.echo Sample.blank_url [] in
  let forged := MessageEvent {| OAuthRedirect := Some Sample.forged_href; from_popup := true |} in
  let genuine := MessageEvent {| OAuthRedirect := Some Sample.redirect_href; from_popup := true |} in
  let w0 := snd (handlePopupRedirect "uuid-0" 120 (Sample.world None ∅)) in
  let w1 := snd (run_events env [forged] w0) in
  let w2 := snd (run_events env [genuine; TimerEvent] w1) in
  OAuthPromise (page w2) = Rejected (Error (mismatch_message Sample.forged_url) None) /\
  count_calls is_popup_close w1 = 1%nat /\
  trace w2 = trace w1.
Proof.
  intros env forged genuine w0 w1 w2.
  destruct (popup_attempt_settles_once env "uuid-0" 120 (Sample.world None ∅)
              [forged] [genuine; TimerEvent] eq_refl) as [Hsettled _].
  change (settled (snd (run_events env [forged]
                          (snd (handlePopupRedirect "uuid-0" 120 (Sample.world None ∅))))))
    with true in Hsettled.
  destruct Hsettled as (_ & Hclose & _ & _ & Hp & Ht).
  split; [exact Hp|]. split; [exact Hclose | exact Ht].
Defined.

(** Awaiting the attempt's promise while the loop delivers events that
    include the timer never hangs. *)
Lemma await_OAuthPromise_settles (env : Env) (OAuthState : string) (timeout : Z)
    (closes removals : nat) (evs : list Event) :
  forall w,
    attempt_invariant OAuthState timeout closes removals w ->
    settled w = true \/ In TimerEvent evs ->
    fst (await_OAuthPromise env evs w) <> Hang.
Proof.
  induction evs as [|ev evs IH]; intros w Hinv Hwill.
  - destruct Hwill as [Hsettled|[]]. unfold settled in Hsettled.
    simpl. unfold_monad. now destruct (OAuthPromise (page w)).
  - simpl. unfold bind at 1. unfold get at 1.
    destruct (OAuthPromise (page w)) eqn:Hp; try (unfold_monad; discriminate).
    assert (Hpending : settled w = false) by (unfold settled; now rewrite Hp).
    destruct (dispatch_pending env _ _ _ _ ev w Hinv Hpending) as (w1 & Hstep & Hinv1 & Htimer).
    unfold bind at 1. rewrite Hstep. apply IH; [exact Hinv1|].
    destruct Hwill as [Habs|[->|Hin]]; [congruence | left; now apply Htimer | now right].
Qed.

(** * Further properties *)

(** ** Frame rules *)

Section Frame.
Context {S : Type} (proj : World -> S).

Lemma preserves_ret {A} (a : A) : preserves proj (ret a).
Proof. intros w. reflexivity. Qed.

Lemma preserves_throw {A} (r : Reason) : preserves proj (@throw A r).
Proof. intros w. reflexivity. Qed.

Lemma preserves_hang {A} : preserves proj (@hang A).
Proof. intros w. reflexivity. Qed.

Lemma preserves_answer {A} (r : Result A) : preserves proj (answer r).
Proof. intros w. reflexivity. Qed.

Lemma preserves_get {A} (f : World -> A) : preserves proj (get f).
Proof. intros w. reflexivity. Qed.

Lemma preserves_rethrow {A} (message : string) (r : Reason) :
  preserves proj (@rethrow A message r).
Proof. intros w. reflexivity. Qed.

Lemma preserves_effect (f : World -> World) :
  (forall w, proj (f w) = proj w) -> preserves proj (effect f).
Proof. intros Hf w. apply Hf. Qed.

Lemma preserves_bind {A B} (m : M A) (k : A -> M B) :
  preserves proj m -> (forall a, preserves proj (k a)) -> preserves proj (bind m k).
Proof.
  intros Hm Hk w. unfold bind. specialize (Hm w).
  destruct (m w) as [[a|r|] w1]; simpl in *; try exact Hm.
  now rewrite Hk.
Qed.

Lemma preserves_catch {A} (m : M A) (handler : Reason -> M A) :
  preserves proj m -> (forall r, preserves proj (handler r)) -> preserves proj (catch m handler).
Proof.
  intros Hm Hh w. unfold catch. specialize (Hm w).
  destruct (m w) as [[a|r|] w1]; simpl in *; try exact Hm.
  now rewrite Hh.
Qed.

Lemma preserves_then2 {A B} (m : M A) (f : A -> M B) (g : Reason -> M B) :
  preserves proj m -> (forall a, preserves proj (f a)) -> (forall r, preserves proj (g r)) ->
  preserves proj (then2 m f g).
Proof.
  intros Hm Hf Hg w. unfold then2. specialize (Hm w).
  destruct (m w) as [[a|r|] w1]; simpl in *; try exact Hm.
  - now rewrite Hf.
  - now rewrite Hg.
Qed.

End Frame.

Create HintDb frame discriminated.
#[local] Hint Resolve preserves_ret preserves_throw preserves_hang preserves_answer
  preserves_get preserves_rethrow preserves_effect : frame.

Ltac frame :=
  repeat first
    [ solve [auto 2 with frame]
    | apply preserves_bind; [|intros ?]
    | apply preserves_catch; [|intros ?]
    | apply preserves_then2; [|intros ?|intros ?]
    | apply preserves_ret | apply preserves_throw | apply preserves_hang
    | apply preserves_answer | apply preserves_get | apply preserves_rethrow
    | apply preserves_effect; intros ?; reflexivity
    | match goal with
      | |- preserves _ (match ?x with _ => _ end) => destruct x
      | |- preserves _ (if ?b then _ else _) => destruct b
      | H : _ |- _ => apply H
      end ].

(** ** The refresh token at rest *)

Lemma OAuthRedirectHandler_at_rest (env : Env) (OAuthState : option string)
    (redirectURL : URL) :
  preserves at_rest (OAuthRedirectHandler env OAuthState OAuthResolve OAuthReject redirectURL).
Proof.
  unfold OAuthRedirectHandler, JSON_parse_arg, own_state, OAuthResolve, OAuthReject. frame.
Qed.
#[local] Hint Resolve OAuthRedirectHandler_at_rest : frame.

Lemma run_handler_at_rest (env : Env) (h : Handler) (event : option Message) :
  preserves at_rest (run_handler env h event).
Proof.
  unfold run_handler, popupRedirectHandler, popupTimeoutHandler, popupRedirectCleanup,
    OAuthReject.
  destruct h; [destruct event| |]; frame.
Qed.
#[local] Hint Resolve run_handler_at_rest : frame.

Lemma run_jobs_at_rest (env : Env) (jobs : list Handler) :
  preserves at_rest (run_jobs env jobs).
Proof.
  induction jobs as [|j jobs IH]; simpl; unfold uncaught; frame.
Qed.
#[local] Hint Resolve run_jobs_at_rest : frame.

Lemma dispatch_at_rest (env : Env) (ev : Event) : preserves at_rest (dispatch env ev).
Proof.
  unfold dispatch, run_microtasks, uncaught.
  destruct ev; frame.
Qed.
#[local] Hint Resolve dispatch_at_rest : frame.

Lemma await_OAuthPromise_at_rest (env : Env) (evs : list Event) :
  preserves at_rest (await_OAuthPromise env evs).
Proof.
  induction evs as [|ev evs IH]; simpl; frame.
Qed.
#[local] Hint Resolve await_OAuthPromise_at_rest : frame.

Lemma OAuthGetCode_at_rest (env : Env) (self : Self) (timeout : Z)
    (offlineToken popupRedirect : bool) :
  preserves at_rest (OAuthGetCode env self timeout offlineToken popupRedirect).
Proof.
  unfold OAuthGetCode, navigationRedirectHandler, crypto_randomUUID,
    dbx_getAuthenticationUrl, OAuthPopupRedirect, OAuthNavigationRedirect,
    handlePopupRedirect, Promise_withResolvers, OAuthPromise_finally.
  frame.
Qed.
#[local] Hint Resolve OAuthGetCode_at_rest : frame.

Lemma in_sync_at_rest (w w' : World) :
  at_rest w' = at_rest w -> in_sync w -> in_sync w'.
Proof.
  unfold at_rest, in_sync. intros Heq Hsync stored Hst.
  inversion Heq as [[Hrt Hts]]. rewrite Hrt. apply Hsync. congruence.
Qed.

(** [m] keeps the storage and the memory in step. *)
Section Sync.

Lemma keeps_preserves {A} (m : M A) (w : World) :
  preserves at_rest m -> in_sync w -> in_sync (snd (m w)).
Proof. intros Hm. apply in_sync_at_rest, Hm. Qed.

Lemma keeps_bind {A B} (m : M A) (k : A -> M B) :
  (forall w, in_sync w -> in_sync (snd (m w))) ->
  (forall a w, in_sync w -> in_sync (snd (k a w))) ->
  forall w, in_sync w -> in_sync (snd (bind m k w)).
Proof.
  intros Hm Hk w Hw. unfold bind. specialize (Hm w Hw).
  destruct (m w) as [[a|r|] w1]; simpl in *; auto.
Qed.

Lemma keeps_catch {A} (m : M A) (handler : Reason -> M A) :
  (forall w, in_sync w -> in_sync (snd (m w))) ->
  (forall r w, in_sync w -> in_sync (snd (handler r w))) ->
  forall w, in_sync w -> in_sync (snd (catch m handler w)).
Proof.
  intros Hm Hh w Hw. unfold catch. specialize (Hm w Hw).
  destruct (m w) as [[a|r|] w1]; simpl in *; auto.
Qed.

End Sync.

(** Recording a refresh token in memory and then saving it leaves the two
    in step, wherever it starts from. *)
Lemma save_after_set_in_sync (env : Env) (token : option Token) (expiry : option Z) (w : World) :
  in_sync (snd ((effect (with_auth (set_refreshToken token)) ;;;
                 effect (with_auth (set_accessTokenExpiresAt expiry)) ;;;
                 tokenStorage_saveToken token) w)).
Proof.
  unfold tokenStorage_saveToken. unfold_monad. simpl.
  destruct (tokenStorage w) eqn:Hst; simpl; intros stored Hstored; simpl in *; congruence.
Qed.

Lemma OAuthRefreshToken_in_sync (env : Env) (w : World) :
  in_sync w -> in_sync (snd (OAuthRefreshToken env w)).
Proof.
  intros Hsync. unfold OAuthRefreshToken, dbx_checkAndRefreshAccessToken, tokenStorage_saveToken.
  unfold_monad. destruct (truthy (refreshToken (auth w))); [|exact Hsync]. simpl.
  destruct (refresh_endpoint env) as [[[tok expiry]|]|reason|]; simpl; try exact Hsync.
  destruct (is_invalid_grant reason); simpl; [|exact Hsync].
  destruct (tokenStorage w) eqn:Hst; simpl; intros stored Hstored; simpl in *; congruence.
Qed.

Lemma OAuthCheckToken_in_sync (env : Env) (w : World) :
  in_sync w -> in_sync (snd (OAuthCheckToken env w)).
Proof.
  revert w. unfold OAuthCheckToken. apply keeps_bind.
  - apply OAuthRefreshToken_in_sync.
  - intros fresh w. apply keeps_preserves.
    unfold crypto_randomUUID, dbx_checkUser. frame.
Qed.

Lemma OAuth_in_sync (env : Env) (self : Self) (timeout : option Z)
    (offlineToken popupRedirect : option bool) (w : World) :
  in_sync w -> in_sync (snd (OAuth env self timeout offlineToken popupRedirect w)).
Proof.
  revert w. unfold OAuth. apply keeps_bind; [apply OAuthCheckToken_in_sync|].
  intros authenticated. destruct authenticated; [intros w; exact id|].
  apply keeps_bind.
  - intros w. apply keeps_preserves. frame.
  - intros OAuthCode.
    destruct (negb (truthy OAuthCode) && negb (default (usePopupRedirect self) popupRedirect));
      [intros w; exact id|].
    apply keeps_bind.
    + intros w. apply keeps_preserves. unfold OAuthGetTokenInfo. frame.
    + intros tokenInfo. apply keeps_bind.
      * intros w. apply keeps_preserves. frame.
      * intros _. destruct (default (useOfflineToken self) offlineToken);
          [|intros w; exact id].
        intros w _. apply (save_after_set_in_sync env).
Qed.

Lemma for_in_at_rest {A} (body : nat -> A -> M unit) (arr : list A) :
  (forall idx x, preserves at_rest (body idx x)) ->
  forall start, preserves at_rest (for_in body start arr).
Proof.
  intros Hbody. induction arr as [|x arr IH]; intros start; simpl; frame.
Qed.

Lemma uploadSmallFile_at_rest (env : Env) (file : File) (dir : string) :
  preserves at_rest (uploadSmallFile env file dir).
Proof. unfold uploadSmallFile. frame. Qed.

Lemma uploadLargeFile_at_rest (env : Env) (file : File) :
  preserves at_rest (uploadLargeFile env file).
Proof.
  unfold uploadLargeFile. frame. apply for_in_at_rest. intros idx x. frame.
Qed.

(** X1. The storage operations and [OAuth] keep the injected storage in
    step with the refresh token in memory: if what the storage persists is
    the refresh token held before the call, it is so after it, whatever
    the collaborators answer and however the call ends. *)
Theorem public_operations_keep_in_sync (env : Env) (self : Self) (w : World) :
  in_sync w ->
  (forall timeout offlineToken popupRedirect,
     in_sync (snd (OAuth env self timeout offlineToken popupRedirect w))) /\
  (forall path timeout, in_sync (snd (fetchFileList env self path timeout w))) /\
  (forall path timeout, in_sync (snd (downloadFile env self path timeout w))) /\
  (forall file timeout, in_sync (snd (uploadFile env self file timeout w))).
Proof.
  intros Hsync. split; [|split; [|split]].
  - intros. now apply OAuth_in_sync.
  - intros path timeout. revert w Hsync. unfold fetchFileList.
    apply keeps_bind; [intros w; apply OAuth_in_sync|].
    intros _ w. apply keeps_preserves. frame.
  - intros path timeout. revert w Hsync. unfold downloadFile.
    apply keeps_bind; [intros w; apply OAuth_in_sync|].
    intros _ w. apply keeps_preserves. frame.
  - intros file timeout. revert w Hsync. unfold uploadFile.
    apply keeps_bind; [intros w; apply OAuth_in_sync|].
    intros _ w. apply keeps_preserves.
    apply preserves_catch; [|intros r; frame].
    destruct (size file <? FILE_SIZE_LIMIT);
      [apply uploadSmallFile_at_rest | apply uploadLargeFile_at_rest].
Qed.

Lemma public_operations_keep_in_sync_witness :
  let env := Sample.env (Throw Sample.invalid_grant) Sample.offline Sample.blank_url [] in
  in_sync (snd (uploadFile env Sample.self {| name := "a.bin"; size := 10 |} None
                  (Sample.world (Some "rt-0") ∅))).
Proof.
  intros env.
  assert (Hstart : in_sync (Sample.world (Some "rt-0") ∅)).
  { intros stored Hst. simpl in Hst. now inversion Hst. }
  destruct (public_operations_keep_in_sync env Sample.self _ Hstart) as (_ & _ & _ & Hup).
  apply Hup.
Defined.

(** The constructor refuses an empty client identifier and makes no
    instance; otherwise the instance starts with the refresh token the
    injected storage gave (none without a storage), in step with it, with
    no access token, and without having called anything. *)
Theorem constructor_loads_refresh_token (clientId redirectURI : string)
    (appId : option string) (stored : option (option Token))
    (offlineToken popupRedirect : bool) (session : gmap string string) :
  match constructor clientId redirectURI appId stored offlineToken popupRedirect session with
  | Ok (self, w) =>
      clientId <> "" /\
      in_sync w /\
      refreshToken (auth w) = match stored with Some token => token | None => None end /\
      accessToken (auth w) = None /\
      tokenStorage w = stored /\
      sessionStorage w = session /\
      trace w = []
  | Throw reason =>
      clientId = "" /\
      reason = Error "You must provide your Client ID (your Dropbox App key)!" None
  | Hang => False
  end.
Proof.
  unfold constructor. destruct (String.eqb_spec clientId "") as [Hempty|Hid].
  - auto.
  - repeat split; auto. intros token Hst. simpl in *. now subst stored.
Qed.

(** ** Messages the popup listener does not act on *)

Lemma dispatch_inert (env : Env) (OAuthState : string) (m : Message) (w : World) :
  microtasks (page w) = [] ->
  message_listener (page w) = Some (redirectHandler OAuthState) ->
  ignored m || malformed env m = true ->
  dispatch env (MessageEvent m) w = (Ok tt, w).
Proof.
  intros Hmicro Hlistener Hinert.
  destruct w as [a ts ss u [P R Mq L T] tr]. simpl in Hmicro, Hlistener. subst Mq L.
  unfold ignored, malformed in Hinert.
  unfold dispatch, run_handler, popupRedirectHandler, uncaught, run_microtasks.
  destruct m as [[href|] source]; cbn [OAuthRedirect from_popup] in *;
    [|unfold_monad; reflexivity].
  destruct source; cbn [negb orb andb] in Hinert; [|unfold_monad; reflexivity].
  destruct (URL_parse env href) as [redirectURL|]; [|unfold_monad; reflexivity].
  unfold OAuthRedirectHandler, JSON_parse_arg.
  destruct (JSON_parse env _) as [[| | | | |]|]; try discriminate;
    unfold_monad; reflexivity.
Qed.

Lemma run_events_inert (env : Env) (OAuthState : string) (msgs : list Message) :
  forall w,
    microtasks (page w) = [] ->
    message_listener (page w) = Some (redirectHandler OAuthState) ->
    forallb (fun m => ignored m || malformed env m) msgs = true ->
    run_events env (map MessageEvent msgs) w = (Ok tt, w).
Proof.
  induction msgs as [|m msgs IH]; intros w Hmicro Hlistener Hall;
    cbn [run_events map]; simpl in Hall.
  - reflexivity.
  - apply andb_prop in Hall. destruct Hall as [Hm Hall].
    unfold bind at 1. rewrite (dispatch_inert _ _ _ _ Hmicro Hlistener Hm). now apply IH.
Qed.

(** X2. While the redirect listener of an attempt is in place, messages
    that lack the [OAuthRedirect] marker or do not come from the popup are
    let pass: whatever URL they carry (the genuine one included), nothing in
    the state changes, no call is made and the promise stays as it is. *)
Theorem popup_ignores_foreign_messages (env : Env) (OAuthState : string)
    (msgs : list Message) (w : World) :
  microtasks (page w) = [] ->
  message_listener (page w) = Some (redirectHandler OAuthState) ->
  forallb ignored msgs = true ->
  run_events env (map MessageEvent msgs) w = (Ok tt, w).
Proof.
  intros Hmicro Hlistener Hall. apply (run_events_inert env OAuthState); auto.
  rewrite forallb_forall in *. intros m Hin. now rewrite (Hall m Hin).
Qed.

Lemma popup_ignores_foreign_messages_witness :
  let env := Sample.env (Ok None) Sample.echo Sample.blank_url [] in
  let w := snd (handlePopupRedirect "uuid-0" 120 (Sample.world None ∅)) in
  run_events env
    [MessageEvent {| OAuthRedirect := Some Sample.redirect_href; from_popup := false |};
     MessageEvent {| OAuthRedirect := None; from_popup := true |}] w
  = (Ok tt, w).
Proof.
  intros env w.
  exact (popup_ignores_foreign_messages env "uuid-0"
           [{| OAuthRedirect := Some Sample.redirect_href; from_popup := false |};
            {| OAuthRedirect := None; from_popup := true |}] w eq_refl eq_refl eq_refl).
Defined.

(** X3. A message from the popup whose URL does not parse, or whose [state]
    parameter is missing, is not JSON or decodes to [null], makes the
    listener throw before it settles anything: the attempt stays pending,
    the listener stays in place and no call is made (the message is not
    even stopped from propagating). *)
Theorem popup_unreadable_redirect_leaves_pending (env : Env) (OAuthState : string)
    (msgs : list Message) (w : World) :
  microtasks (page w) = [] ->
  message_listener (page w) = Some (redirectHandler OAuthState) ->
  forallb (malformed env) msgs = true ->
  run_events env (map MessageEvent msgs) w = (Ok tt, w).
Proof.
  intros Hmicro Hlistener Hall. apply (run_events_inert env OAuthState); auto.
  rewrite forallb_forall in *. intros m Hin. rewrite (Hall m Hin). apply orb_true_r.
Qed.

Lemma popup_unreadable_redirect_leaves_pending_witness :
  let env := Sample.env (Ok None) Sample.echo Sample.blank_url [] in
  let w := snd (handlePopupRedirect "uuid-0" 120 (Sample.world None ∅)) in
  run_events env
    [MessageEvent {| OAuthRedirect := Some "not a url"; from_popup := true |}] w
  = (Ok tt, w) /\ OAuthPromise (page w) = Pending.
Proof.
  intros env w. split; [|reflexivity].
  exact (popup_unreadable_redirect_leaves_pending env "uuid-0"
           [{| OAuthRedirect := Some "not a url"; from_popup := true |}] w
           eq_refl eq_refl eq_refl).
Defined.

(** ** Outcomes of the popup channel *)

Lemma await_OAuthPromise_inert (env : Env) (OAuthState : string) (quiet : list Message)
    (rest : list Event) :
  forall w,
    OAuthPromise (page w) = Pending ->
    microtasks (page w) = [] ->
    message_listener (page w) = Some (redirectHandler OAuthState) ->
    forallb (fun m => ignored m || malformed env m) quiet = true ->
    await_OAuthPromise env (map MessageEvent quiet ++ rest) w = await_OAuthPromise env rest w.
Proof.
  induction quiet as [|m quiet IH]; intros w Hpending Hmicro Hlistener Hall;
    cbn [map app]; simpl in Hall.
  - reflexivity.
  - apply andb_prop in Hall. destruct Hall as [Hm Hall].
    cbn [await_OAuthPromise]. unfold bind at 1. unfold get at 1. rewrite Hpending.
    unfold bind at 1. rewrite (dispatch_inert _ _ _ _ Hmicro Hlistener Hm). now apply IH.
Qed.

(** The state in which [#OAuthPopupRedirect] starts to wait. *)
Lemma OAuthPopupRedirect_waits (env : Env) (self : Self) (OAuthState OAuthURL : string)
    (timeout : Z) (w : World) :
  window_open_ok env = true ->
  exists w0,
    OAuthPopupRedirect env self OAuthState OAuthURL timeout w
      = await_OAuthPromise env (popup_events env) w0 /\
    OAuthPromise (page w0) = Pending /\
    reactions (page w0) = [cleanupHandler] /\
    microtasks (page w0) = microtasks (page w) /\
    message_listener (page w0) = Some (redirectHandler OAuthState) /\
    timer (page w0) = Some (timeoutHandler timeout) /\
    trace w0 = (trace w ++ popup_setup_calls self OAuthURL timeout)%list /\
    auth w0 = auth w /\ tokenStorage w0 = tokenStorage w /\
    sessionStorage w0 = sessionStorage w /\ uuids w0 = uuids w.
Proof.
  intros Hopen. unfold OAuthPopupRedirect, handlePopupRedirect, Promise_withResolvers,
    OAuthPromise_finally.
  rewrite Hopen. unfold bind, effect. simpl. eexists. split; [reflexivity|]. simpl.
  rewrite <- !app_assoc. simpl. repeat split; reflexivity.
Qed.

Lemma await_OAuthPromise_settled (env : Env) (evs : list Event) (w : World) :
  await_OAuthPromise env evs w =
    match OAuthPromise (page w) with
    | Fulfilled value => (Ok value, w)
    | Rejected reason => (Throw reason, w)
    | Pending => await_OAuthPromise env evs w
    end.
Proof.
  destruct (OAuthPromise (page w)) eqn:Hp; [reflexivity| |];
    destruct evs; simpl; unfold_monad; now rewrite Hp.
Qed.

Lemma await_OAuthPromise_pending (env : Env) (ev : Event) (evs : list Event) (w : World) :
  OAuthPromise (page w) = Pending ->
  await_OAuthPromise env (ev :: evs) w = (dispatch env ev ;;; await_OAuthPromise env evs) w.
Proof. intros Hp. cbn [await_OAuthPromise]. unfold bind at 1. unfold get at 1. now rewrite Hp. Qed.

(** A readable redirect from the popup settles a pending attempt and
    triggers its cleanup. *)
Lemma dispatch_readable (env : Env) (OAuthState : string) (m : Message) (href : string)
    (redirectURL : URL) (v : JSON) (w : World) :
  OAuthPromise (page w) = Pending ->
  reactions (page w) = [cleanupHandler] ->
  microtasks (page w) = [] ->
  message_listener (page w) = Some (redirectHandler OAuthState) ->
  OAuthRedirect m = Some href ->
  from_popup m = true ->
  URL_parse env href = Some redirectURL ->
  JSON_parse env (template "null" (searchParams_get "state" (searchParams redirectURL)))
    = Some v ->
  v <> JNull ->
  exists w1,
    dispatch env (MessageEvent m) w = (Ok tt, w1) /\
    OAuthPromise (page w1) =
      (if strict_equal (Some OAuthState) (decoded_state v)
       then Fulfilled (searchParams_get "code" (searchParams redirectURL))
       else Rejected (Error (mismatch_message redirectURL) None)) /\
    trace w1 = (trace w ++ [stopImmediatePropagation; popup_close; removeEventListener])%list /\
    message_listener (page w1) = None /\
    timer (page w1) = timer (page w) /\
    auth w1 = auth w.
Proof.
  intros Hp Hr Hmicro Hl Hhref Hsource Hurl Hparse Hnull.
  destruct w as [a ts ss u [P R Mq L T] tr]. simpl in *. subst.
  destruct m as [marker source]. simpl in Hhref, Hsource. subst marker source.
  unfold dispatch, run_handler, popupRedirectHandler, uncaught, run_microtasks,
    OAuthRedirectHandler, JSON_parse_arg.
  cbn [OAuthRedirect from_popup]. rewrite Hurl, Hparse.
  destruct v as [|b|n|s|items|fields]; [now destruct Hnull| | | | |];
    unfold own_state, decoded_state; unfold_monad; cbn -[mismatch_message];
    try (destruct (own_property "state" fields) as [[| | |t| |]|];
         try destruct (OAuthState =? t)%string);
    cbn -[mismatch_message]; eexists; (split; [reflexivity|]); cbn -[mismatch_message];
    rewrite <- ?app_assoc; repeat split; reflexivity.
Qed.

(** X4. The popup opens and every message that arrives is let pass or
    unreadable.  Then [#OAuthPopupRedirect] rejects with the timeout error
    naming the timeout; by then the popup has been closed and the listener
    removed, once each and in that order, after the calls that set the
    attempt up; the timer was armed for [timeout * 1000] milliseconds. *)
Theorem OAuthPopupRedirect_times_out (env : Env) (self : Self)
    (OAuthState OAuthURL : string) (timeout : Z) (w : World) :
  microtasks (page w) = [] ->
  window_open_ok env = true ->
  forallb (fun m => ignored m || malformed env m) (messages env) = true ->
  let run := OAuthPopupRedirect env self OAuthState OAuthURL timeout w in
  fst run = Throw (Error (timeout_message timeout) None) /\
  trace (snd run)
    = (trace w ++ popup_setup_calls self OAuthURL timeout
         ++ [popup_close; removeEventListener])%list /\
  message_listener (page (snd run)) = None /\
  timer (page (snd run)) = None /\
  auth (snd run) = auth w.
Proof.
  intros Hmicro Hopen Hquiet run.
  destruct (OAuthPopupRedirect_waits env self OAuthState OAuthURL timeout w Hopen)
    as (w0 & Hrun & Hp & Hr & Hm & Hl & Ht & Htr & Ha & _).
  subst run. rewrite Hrun. unfold popup_events.
  rewrite (await_OAuthPromise_inert env OAuthState) by congruence.
  destruct w0 as [a0 ts0 ss0 u0 [P R Mq L T] tr0]. simpl in *. subst.
  rewrite Hmicro. unfold_monad. cbn -[timeout_message].
  rewrite <- !app_assoc. repeat split; reflexivity.
Qed.

Lemma OAuthPopupRedirect_times_out_witness :
  let env := Sample.env (Ok None) Sample.echo Sample.blank_url
               [{| OAuthRedirect := Some Sample.redirect_href; from_popup := false |}] in
  fst (OAuthPopupRedirect env Sample.self "uuid-0" "https://www.dropbox.com/oauth2/authorize" 1
         (Sample.world None ∅))
  = Throw (Error "OAuth timed out after 1 seconds." None).
Proof.
  intros env.
  destruct (OAuthPopupRedirect_times_out env Sample.self "uuid-0"
              "https://www.dropbox.com/oauth2/authorize" 1 (Sample.world None ∅)
              eq_refl eq_refl eq_refl) as (Hres & _).
  rewrite Hres. reflexivity.
Defined.

(** X5. The popup opens; the messages before [m] are let pass or
    unreadable; [m] comes from the popup with a URL that parses and a
    [state] that decodes to something other than [null].  Then [m] decides
    the attempt, whatever follows it: [#OAuthPopupRedirect] returns the
    URL's [code] when the decoded value's own [state] is the issued token,
    and rejects with the mismatch error otherwise.  In both cases the
    message is stopped from propagating, then the popup is closed and the
    listener removed; the timer is left armed. *)
Theorem OAuthPopupRedirect_first_redirect_decides (env : Env) (self : Self)
    (OAuthState OAuthURL : string) (timeout : Z) (w : World)
    (quiet rest : list Message) (m : Message) (href : string)
    (redirectURL : URL) (v : JSON) :
  microtasks (page w) = [] ->
  window_open_ok env = true ->
  messages env = (quiet ++ m :: rest)%list ->
  forallb (fun m => ignored m || malformed env m) quiet = true ->
  OAuthRedirect m = Some href ->
  from_popup m = true ->
  URL_parse env href = Some redirectURL ->
  JSON_parse env (template "null" (searchParams_get "state" (searchParams redirectURL)))
    = Some v ->
  v <> JNull ->
  let run := OAuthPopupRedirect env self OAuthState OAuthURL timeout w in
  fst run =
    (if strict_equal (Some OAuthState) (decoded_state v)
     then Ok (searchParams_get "code" (searchParams redirectURL))
     else Throw (Error (mismatch_message redirectURL) None)) /\
  trace (snd run)
    = (trace w ++ popup_setup_calls self OAuthURL timeout
         ++ [stopImmediatePropagation; popup_close; removeEventListener])%list /\
  message_listener (page (snd run)) = None /\
  timer (page (snd run)) = Some (timeoutHandler timeout) /\
  auth (snd run) = auth w.
Proof.
  intros Hmicro Hopen Hmsgs Hquiet Hhref Hsource Hurl Hparse Hnull run.
  destruct (OAuthPopupRedirect_waits env self OAuthState OAuthURL timeout w Hopen)
    as (w0 & Hrun & Hp & Hr & Hm & Hl & Ht & Htr & Ha & _).
  subst run. rewrite Hrun. unfold popup_events. rewrite Hmsgs, map_app, <- app_assoc.
  rewrite (await_OAuthPromise_inert env OAuthState) by congruence.
  destruct (dispatch_readable env OAuthState m href redirectURL v w0)
    as (w1 & Hstep & Hp1 & Htr1 & Hl1 & Ht1 & Ha1); try congruence.
  cbn [map app]. rewrite (await_OAuthPromise_pending _ _ _ _ Hp).
  unfold bind. rewrite Hstep, await_OAuthPromise_settled, Hp1.
  destruct (strict_equal (Some OAuthState) (decoded_state v)); simpl;
    rewrite Htr1, Htr, Hl1, Ht1, Ht, Ha1, Ha, <- !app_assoc; repeat split; reflexivity.
Qed.

Lemma OAuthPopupRedirect_first_redirect_decides_witness :
  let env := Sample.env (Ok None) Sample.echo Sample.blank_url
               [{| OAuthRedirect := Some Sample.forged_href; from_popup := false |};
                {| OAuthRedirect := Some Sample.redirect_href; from_popup := true |};
                {| OAuthRedirect := Some Sample.forged_href; from_popup := true |}] in
  fst (OAuthPopupRedirect env Sample.self "uuid-0" "https://www.dropbox.com/oauth2/authorize"
         120 (Sample.world None ∅))
  = Ok (Some "ABC").
Proof.
  intros env.
  destruct (OAuthPopupRedirect_first_redirect_decides env Sample.self "uuid-0"
              "https://www.dropbox.com/oauth2/authorize" 120 (Sample.world None ∅)
              [{| OAuthRedirect := Some Sample.forged_href; from_popup := false |}]
              [{| OAuthRedirect := Some Sample.forged_href; from_popup := true |}]
              {| OAuthRedirect := Some Sample.redirect_href; from_popup := true |}
              Sample.redirect_href Sample.redirect_url Sample.state_json
              eq_refl eq_refl eq_refl eq_refl eq_refl eq_refl eq_refl eq_refl
              ltac:(discriminate)) as (Hres & _).
  rewrite Hres. reflexivity.
Defined.

(** ** Redirects the handler does not accept *)

(** X6. A [state] that decodes to a string, a number, a boolean or an array
    has no own [state]: the handler rejects a pending promise with the
    mismatch error, even when the decoded value is the issued token itself,
    and whether or not a token was issued. *)
Theorem OAuthRedirectHandler_non_object_rejects (env : Env) (OAuthState : option string)
    (redirectURL : URL) (v : JSON) (w : World) :
  JSON_parse env (template "null" (searchParams_get "state" (searchParams redirectURL)))
    = Some v ->
  v <> JNull ->
  (forall fields, v <> JObj fields) ->
  OAuthPromise (page w) = Pending ->
  let run := OAuthRedirectHandler env OAuthState OAuthResolve OAuthReject redirectURL w in
  fst run = Ok tt /\
  OAuthPromise (page (snd run)) = Rejected (Error (mismatch_message redirectURL) None) /\
  trace (snd run) = trace w.
Proof.
  intros Hparse Hnull Hobj Hpending run. subst run.
  unfold OAuthRedirectHandler, JSON_parse_arg, own_state, OAuthReject, settle.
  rewrite Hparse. unfold_monad.
  destruct v as [|b|n|s|items|fields];
    [now destruct Hnull| | | | |now destruct (Hobj fields)];
    destruct OAuthState; simpl; rewrite Hpending; repeat split; reflexivity.
Qed.

Lemma OAuthRedirectHandler_non_object_rejects_witness :
  let env := Edge.with_JSON_parse (fun _ => Some (JStr "uuid-0")) Edge.base in
  OAuthPromise
    (page (snd (OAuthRedirectHandler env (Some "uuid-0") OAuthResolve OAuthReject
                  Sample.redirect_url (Sample.world None ∅))))
  = Rejected (Error (mismatch_message Sample.redirect_url) None).
Proof.
  intros env.
  refine (proj1 (proj2 (OAuthRedirectHandler_non_object_rejects env (Some "uuid-0")
                          Sample.redirect_url (JStr "uuid-0") (Sample.world None ∅)
                          eq_refl _ _ eq_refl)));
    intros; discriminate.
Defined.

(** ** Returns of the navigation channel *)

Lemma codeVerifier_set (v : option string) (a : Auth) :
  codeVerifier (set_codeVerifier v a) = v.
Proof. now destruct v. Qed.

(** What [#OAuthGetCode] does on a page whose URL carries [code] and a
    [state] that decodes to an object. *)
Lemma navigation_return_outcome (env : Env) (self : Self) (timeout : Z)
    (offlineToken popupRedirect : bool) (w : World) (fields : list (string * JSON)) :
  searchParams_has "code" (searchParams (location env)) = true ->
  searchParams_has "state" (searchParams (location env)) = true ->
  JSON_parse env (template "null" (searchParams_get "state" (searchParams (location env))))
    = Some (JObj fields) ->
  exists w',
    OAuthGetCode env self timeout offlineToken popupRedirect w =
      (if strict_equal (sessionStorage w !! storage_key self "OAuthState")
                       (own_property "state" fields)
       then Ok (searchParams_get "code" (searchParams (location env)))
       else Throw (Error (mismatch_message (location env)) None), w') /\
    codeVerifier (auth w') = sessionStorage w !! storage_key self "CodeVerifier" /\
    accessToken (auth w') = accessToken (auth w) /\
    refreshToken (auth w') = refreshToken (auth w) /\
    tokenStorage w' = tokenStorage w /\
    sessionStorage w' = sessionStorage w /\
    uuids w' = uuids w /\
    trace w' = trace w.
Proof.
  intros Hcode Hstate Hparse. unfold OAuthGetCode. rewrite Hcode, Hstate. cbn [andb].
  unfold navigationRedirectHandler, Promise_withResolvers.
  unfold bind at 1. unfold get at 1.
  unfold bind at 1. unfold get at 1.
  unfold bind at 1. unfold effect at 1.
  unfold bind at 1. unfold effect at 1.
  unfold bind at 1.
  rewrite (OAuthRedirectHandler_object _ _ _ _ _ _ _ Hparse).
  destruct (strict_equal _ _); unfold OAuthResolve, OAuthReject; unfold_monad;
    cbn -[mismatch_message lookup]; eexists; (split; [reflexivity|]);
    cbn -[lookup codeVerifier]; (split; [apply codeVerifier_set|]);
    repeat split; reflexivity.
Qed.

(** X7. Nothing is stored for the app in the session storage, and the page
    URL carries [code] and a [state] that decodes to an object.  Then the
    return is accepted exactly when the object's own [state] is [null]
    (the missing token reads as [null], and [null === null]); any other
    [state], strings included, is rejected with the mismatch error.  No
    call is made either way, and the verifier handed to the authorization
    context is absent. *)
Theorem navigation_return_without_stored_state (env : Env) (self : Self) (timeout : Z)
    (offlineToken popupRedirect : bool) (w : World) (fields : list (string * JSON)) :
  searchParams_has "code" (searchParams (location env)) = true ->
  searchParams_has "state" (searchParams (location env)) = true ->
  JSON_parse env (template "null" (searchParams_get "state" (searchParams (location env))))
    = Some (JObj fields) ->
  sessionStorage w !! storage_key self "OAuthState" = None ->
  sessionStorage w !! storage_key self "CodeVerifier" = None ->
  let run := OAuthGetCode env self timeout offlineToken popupRedirect w in
  (own_property "state" fields = Some JNull ->
     fst run = Ok (searchParams_get "code" (searchParams (location env)))) /\
  (own_property "state" fields <> Some JNull ->
     fst run = Throw (Error (mismatch_message (location env)) None)) /\
  codeVerifier (auth (snd run)) = None /\
  trace (snd run) = trace w.
Proof.
  intros Hcode Hstate Hparse Hst Hcv run.
  destruct (navigation_return_outcome env self timeout offlineToken popupRedirect w fields
              Hcode Hstate Hparse) as (w' & Hrun & Hver & _ & _ & _ & _ & _ & Htrace).
  subst run. rewrite Hrun, Hst. simpl. rewrite Hver, Hcv, Htrace.
  repeat split.
  - intros ->. reflexivity.
  - intros Hne. destruct (own_property "state" fields) as [[| | | | |]|];
      try reflexivity. now destruct Hne.
Qed.

Lemma navigation_return_without_stored_state_witness :
  fst (OAuthGetCode Edge.null_state_env Sample.self 120 true false (Sample.world None ∅))
  = Ok (Some "ABC").
Proof.
  destruct (navigation_return_without_stored_state Edge.null_state_env Sample.self 120
              true false (Sample.world None ∅) [("state", JNull)]
              eq_refl eq_refl eq_refl (lookup_empty _) (lookup_empty _)) as (Hnull & _).
  exact (Hnull eq_refl).
Defined.

(** X8. Round trip of the navigation channel.  A fresh attempt stores the
    state token and [String(getCodeVerifier())] and leaves the page; on a
    later page with the same session storage whose URL carries [code] and a
    [state] decoding to an object with that token, [#OAuthGetCode] returns
    the [code], without a call, and hands the stored text back as the
    verifier: the verifier held at departure when there was one, and the
    text [undefined] when none had been set ([null] when it was [null]). *)
Theorem navigation_round_trip (env : Env) (self : Self) (OAuthState OAuthURL : string)
    (departed arrived : World) (timeout : Z) (offlineToken popupRedirect : bool)
    (code : string) (fields : list (string * JSON)) :
  sessionStorage arrived
    = sessionStorage (snd (OAuthNavigationRedirect self OAuthState OAuthURL departed)) ->
  searchParams_get "code" (searchParams (location env)) = Some code ->
  searchParams_has "state" (searchParams (location env)) = true ->
  JSON_parse env (template "null" (searchParams_get "state" (searchParams (location env))))
    = Some (JObj fields) ->
  own_property "state" fields = Some (JStr OAuthState) ->
  let run := OAuthGetCode env self timeout offlineToken popupRedirect arrived in
  fst run = Ok (Some code) /\
  codeVerifier (auth (snd run)) = Some (ToString (getCodeVerifier (auth departed))) /\
  (forall verifier, getCodeVerifier (auth departed) = Str verifier ->
     codeVerifier (auth (snd run)) = Some verifier) /\
  (getCodeVerifier (auth departed) = Undefined ->
     codeVerifier (auth (snd run)) = Some "undefined") /\
  (getCodeVerifier (auth departed) = Null ->
     codeVerifier (auth (snd run)) = Some "null") /\
  trace (snd run) = trace arrived.
Proof.
  intros Hsession Hcode Hstate Hparse Hown run.
  destruct (OAuthNavigationRedirect_persists self OAuthState OAuthURL departed)
    as (_ & Hst & Hcv & _).
  assert (Hhas : searchParams_has "code" (searchParams (location env)) = true)
    by (unfold searchParams_has; now rewrite Hcode).
  destruct (navigation_return_outcome env self timeout offlineToken popupRedirect arrived
              fields Hhas Hstate Hparse) as (w' & Hrun & Hver & _ & _ & _ & _ & _ & Htrace).
  subst run. rewrite Hrun, Hsession, Hst, Hown.
  assert (Heq : strict_equal (Some OAuthState) (Some (JStr OAuthState)) = true)
    by (now apply strict_equal_spec).
  rewrite Heq. simpl. rewrite Hver, Hsession, Hcv, Htrace, Hcode.
  split; [reflexivity|]. split; [reflexivity|].
  split; [now intros verifier ->|]. split; [now intros ->|]. split; [now intros ->|].
  reflexivity.
Qed.

Lemma navigation_round_trip_witness :
  let departed := with_auth (set_codeVerifier (Some "verifier-1")) (Sample.world None ∅) in
  let arrived :=
    with_sessionStorage
      (fun _ => sessionStorage
                  (snd (OAuthNavigationRedirect Sample.self "uuid-0"
                          "https://www.dropbox.com/oauth2/authorize" departed)))
      (Sample.world None ∅) in
  let run := OAuthGetCode Edge.returned Sample.self 120 true false arrived in
  fst run = Ok (Some "ABC") /\ codeVerifier (auth (snd run)) = Some "verifier-1".
Proof.
  intros departed arrived run.
  destruct (navigation_round_trip Edge.returned Sample.self "uuid-0"
              "https://www.dropbox.com/oauth2/authorize" departed arrived 120 true false
              "ABC" [("state", JStr "uuid-0"); ("appId", JStr "demo")]
              eq_refl eq_refl eq_refl eq_refl eq_refl) as (Hres & Hver & _).
  split; assumption.
Defined.

(** ** Paths of [OAuth] *)

(** X9. The liveness check refuses, the page URL does not carry both
    [code] and [state], the navigation channel is chosen and the
    authorization URL is built.  Then [OAuth] returns without error and
    without exchanging a code: it has asked for the URL with a fresh state
    token, the app identifier and the token type of the offline flag, has
    stored that same token and the PKCE verifier in the session storage
    under the app's keys, and its last call replaces the page with the
    URL.  Access token, refresh token and injected storage are untouched. *)
Theorem OAuth_navigation_departure (env : Env) (self : Self)
    (timeout : option Z) (offlineToken popupRedirect : option bool)
    (w w1 : World) (OAuthURL verifier : string) :
  OAuthCheckToken env w = (Ok false, w1) ->
  searchParams_has "code" (searchParams (location env))
    && searchParams_has "state" (searchParams (location env)) = false ->
  default (usePopupRedirect self) popupRedirect = false ->
  let state := randomUUID env (uuids w1) in
  let stateObj := JObj [("state", JStr state); ("appId", appId_json self)] in
  let tokenType :=
    if default (useOfflineToken self) offlineToken then "offline" else "online" in
  authUrl_endpoint env (redirectURI self) stateObj tokenType = Ok (OAuthURL, verifier) ->
  let run := OAuth env self timeout offlineToken popupRedirect w in
  fst run = Ok tt /\
  trace (snd run)
    = (trace w1 ++ [getAuthenticationUrl (redirectURI self) stateObj "code" tokenType true;
                    location_replace OAuthURL])%list /\
  sessionStorage (snd run) !! storage_key self "OAuthState" = Some state /\
  sessionStorage (snd run) !! storage_key self "CodeVerifier" = Some verifier /\
  accessToken (auth (snd run)) = accessToken (auth w1) /\
  refreshToken (auth (snd run)) = refreshToken (auth w1) /\
  tokenStorage (snd run) = tokenStorage w1.
Proof.
  intros Hcheck Hfresh Hnav state stateObj tokenType Hurl run.
  assert (Hrun : exists w',
            run = (Ok tt, w') /\
            trace w' = (trace w1
                          ++ [getAuthenticationUrl (redirectURI self) stateObj "code"
                                tokenType true;
                              location_replace OAuthURL])%list /\
            sessionStorage w' =
              <[storage_key self "CodeVerifier" := verifier]>
                (<[storage_key self "OAuthState" := state]> (sessionStorage w1)) /\
            accessToken (auth w') = accessToken (auth w1) /\
            refreshToken (auth w') = refreshToken (auth w1) /\
            tokenStorage w' = tokenStorage w1).
  { subst run. unfold OAuth. unfold bind at 1. rewrite Hcheck. rewrite Hnav.
    unfold bind at 1. unfold catch at 1. unfold OAuthGetCode. rewrite Hfresh.
    unfold crypto_randomUUID, dbx_getAuthenticationUrl, OAuthNavigationRedirect.
    unfold_monad. cbn -[storage_key insert]. fold state. fold stateObj. fold tokenType.
    rewrite Hurl. cbn -[storage_key insert].
    eexists. split; [reflexivity|]. cbn -[storage_key insert].
    rewrite <- app_assoc. repeat split; reflexivity. }
  destruct Hrun as (w' & -> & Htrace & Hsession & Hat & Hrt & Hts). simpl.
  rewrite Htrace, Hsession, Hat, Hrt, Hts. repeat split.
  - rewrite lookup_insert_ne by (apply not_eq_sym, storage_key_distinct).
    apply lookup_insert_eq.
  - apply lookup_insert_eq.
Qed.

Lemma OAuth_navigation_departure_witness :
  let run := OAuth Edge.base Sample.self None None (Some false) (Sample.world None ∅) in
  fst run = Ok tt /\
  sessionStorage (snd run) !! "OAuthState-demo" = Some "uuid-1" /\
  sessionStorage (snd run) !! "CodeVerifier-demo" = Some "verifier-1".
Proof.
  intros run.
  destruct (OAuth_navigation_departure Edge.base Sample.self None None (Some false)
              (Sample.world None ∅) _ "https://www.dropbox.com/oauth2/authorize"
              "verifier-1" eq_refl eq_refl eq_refl eq_refl)
    as (Hres & _ & Hst & Hcv & _).
  repeat split; assumption.
Defined.

(** X10. The liveness check refuses, the page URL does not carry both
    [code] and [state], the popup channel is chosen, the authorization URL
    is built, and no popup can be opened.  Then [OAuth] throws the context
    error for the code, whose cause is the popup error; it has tried to
    open the popup and has done nothing after that: no listener, no timer,
    no exchange, and the tokens are untouched. *)
Theorem OAuth_popup_blocked (env : Env) (self : Self)
    (timeout : option Z) (offlineToken popupRedirect : option bool)
    (w w1 : World) (OAuthURL verifier : string) :
  OAuthCheckToken env w = (Ok false, w1) ->
  searchParams_has "code" (searchParams (location env))
    && searchParams_has "state" (searchParams (location env)) = false ->
  default (usePopupRedirect self) popupRedirect = true ->
  let state := randomUUID env (uuids w1) in
  let stateObj := JObj [("state", JStr state); ("appId", appId_json self)] in
  let tokenType :=
    if default (useOfflineToken self) offlineToken then "offline" else "online" in
  authUrl_endpoint env (redirectURI self) stateObj tokenType = Ok (OAuthURL, verifier) ->
  window_open_ok env = false ->
  let run := OAuth env self timeout offlineToken popupRedirect w in
  fst run = Throw (Error "Error fetching OAuth Code."
                     (Some (Error "Failed to create popup for authentication!" None))) /\
  trace (snd run)
    = (trace w1 ++ [getAuthenticationUrl (redirectURI self) stateObj "code" tokenType true;
                    window_open (appId self)])%list /\
  page (snd run) = page w1 /\
  accessToken (auth (snd run)) = accessToken (auth w1) /\
  refreshToken (auth (snd run)) = refreshToken (auth w1) /\
  tokenStorage (snd run) = tokenStorage w1.
Proof.
  intros Hcheck Hfresh Hpop state stateObj tokenType Hurl Hblocked run.
  assert (Hrun : exists w',
            run = (Throw (Error "Error fetching OAuth Code."
                            (Some (Error "Failed to create popup for authentication!" None))),
                   w') /\
            trace w' = (trace w1
                          ++ [getAuthenticationUrl (redirectURI self) stateObj "code"
                                tokenType true;
                              window_open (appId self)])%list /\
            page w' = page w1 /\
            accessToken (auth w') = accessToken (auth w1) /\
            refreshToken (auth w') = refreshToken (auth w1) /\
            tokenStorage w' = tokenStorage w1).
  { subst run. unfold OAuth. unfold bind at 1. rewrite Hcheck. rewrite Hpop.
    unfold bind at 1. unfold catch at 1. unfold OAuthGetCode. rewrite Hfresh.
    unfold crypto_randomUUID, dbx_getAuthenticationUrl, OAuthPopupRedirect.
    rewrite Hblocked. unfold_monad. simpl. fold state. fold stateObj. fold tokenType.
    rewrite Hurl. simpl. eexists. split; [reflexivity|]. simpl.
    rewrite <- app_assoc. repeat split; reflexivity. }
  destruct Hrun as (w' & -> & Htrace & Hpage & Hat & Hrt & Hts). simpl.
  repeat split; assumption.
Qed.

Lemma OAuth_popup_blocked_witness :
  fst (OAuth (Edge.with_window_open false Edge.base) Sample.self None None None
         (Sample.world None ∅))
  = Throw (Error "Error fetching OAuth Code."
             (Some (Error "Failed to create popup for authentication!" None))).
Proof.
  destruct (OAuth_popup_blocked (Edge.with_window_open false Edge.base) Sample.self
              None None None (Sample.world None ∅) _
              "https://www.dropbox.com/oauth2/authorize" "verifier-1"
              eq_refl eq_refl eq_refl eq_refl eq_refl) as (Hres & _).
  exact Hres.
Defined.

(** What [OAuth] does once it holds a code it goes on with. *)
Lemma OAuth_after_code (env : Env) (self : Self)
    (timeout : option Z) (offlineToken popupRedirect : option bool)
    (w w1 w2 : World) (OAuthCode : option string) :
  OAuthCheckToken env w = (Ok false, w1) ->
  OAuthGetCode env self (default OAUTH_TIMEOUT timeout)
    (default (useOfflineToken self) offlineToken)
    (default (usePopupRedirect self) popupRedirect) w1 = (Ok OAuthCode, w2) ->
  truthy OAuthCode = true \/ default (usePopupRedirect self) popupRedirect = true ->
  OAuth env self timeout offlineToken popupRedirect w =
    (tokenInfo <- catch (OAuthGetTokenInfo env self OAuthCode)
                    (rethrow "Error converting the OAuth Code to an OAuth Token.") ;;
     effect (with_auth (set_accessToken (Some (access_token tokenInfo)))) ;;;
     if default (useOfflineToken self) offlineToken then
       effect (with_auth (set_refreshToken (refresh_token tokenInfo))) ;;;
       effect (with_auth (set_accessTokenExpiresAt
                            (Some (Date_now env + expires_in tokenInfo)))) ;;;
       tokenStorage_saveToken (refresh_token tokenInfo)
     else ret tt) w2.
Proof.
  intros Hcheck Hcode Hgo. unfold OAuth. unfold bind at 1. rewrite Hcheck.
  unfold bind at 1. unfold catch at 1. rewrite Hcode.
  assert (Hskip : negb (truthy OAuthCode)
                  && negb (default (usePopupRedirect self) popupRedirect) = false).
  { destruct Hgo as [-> | ->]; [reflexivity | apply andb_false_r]. }
  now rewrite Hskip.
Qed.

(** X11. In online-token mode a successful exchange records the access
    token and nothing else: refresh token, expiry and injected storage are
    as the code acquisition left them, and the exchange is the last call
    (nothing is saved). *)
Theorem OAuth_online_stores_access_token_only (env : Env) (self : Self)
    (timeout : option Z) (offlineToken popupRedirect : option bool)
    (w w1 w2 : World) (OAuthCode : option string) (tokenInfo : TokenInfo) :
  OAuthCheckToken env w = (Ok false, w1) ->
  default (useOfflineToken self) offlineToken = false ->
  OAuthGetCode env self (default OAUTH_TIMEOUT timeout) false
    (default (usePopupRedirect self) popupRedirect) w1 = (Ok OAuthCode, w2) ->
  truthy OAuthCode = true \/ default (usePopupRedirect self) popupRedirect = true ->
  exchange_endpoint env (redirectURI self) OAuthCode = Ok tokenInfo ->
  let run := OAuth env self timeout offlineToken popupRedirect w in
  fst run = Ok tt /\
  accessToken (auth (snd run)) = Some (access_token tokenInfo) /\
  refreshToken (auth (snd run)) = refreshToken (auth w2) /\
  accessTokenExpiresAt (auth (snd run)) = accessTokenExpiresAt (auth w2) /\
  tokenStorage (snd run) = tokenStorage w2 /\
  trace (snd run) = (trace w2 ++ [getAccessTokenFromCode (redirectURI self) OAuthCode])%list.
Proof.
  intros Hcheck Honline Hcode Hgo Hexchange run. subst run.
  rewrite <- Honline in Hcode.
  rewrite (OAuth_after_code _ _ _ _ _ _ _ _ _ Hcheck Hcode Hgo), Honline.
  unfold OAuthGetTokenInfo. unfold_monad. simpl. rewrite Hexchange. simpl.
  repeat split; reflexivity.
Qed.

Lemma OAuth_online_stores_access_token_only_witness :
  let session : gmap string string :=
    <["OAuthState-demo" := "uuid-0"]> (<["CodeVerifier-demo" := "verifier-1"]> ∅) in
  let run := OAuth Edge.returned Sample.self None (Some false) (Some false)
               (Sample.world (Some "") session) in
  accessToken (auth (snd run)) = Some "at-1" /\
  refreshToken (auth (snd run)) = Some "" /\
  tokenStorage (snd run) = Some (Some "").
Proof.
  intros session run.
  destruct (OAuth_online_stores_access_token_only Edge.returned Sample.self None
              (Some false) (Some false) (Sample.world (Some "") session) _ _
              (Some "ABC") Sample.tokens
              eq_refl eq_refl eq_refl (or_introl eq_refl) eq_refl)
    as (_ & Hat & Hrt & _ & Hts & _).
  subst run. rewrite Hat, Hrt, Hts. repeat split; reflexivity.
Defined.

(** X12. When the exchange is rejected [OAuth] throws the context error for
    the token, with the rejection as its cause, and records nothing: the
    credential, the injected storage and the session storage are as the
    code acquisition left them, and the exchange is the last call. *)
Theorem OAuth_exchange_rejected (env : Env) (self : Self)
    (timeout : option Z) (offlineToken popupRedirect : option bool)
    (w w1 w2 : World) (OAuthCode : option string) (reason : Reason) :
  OAuthCheckToken env w = (Ok false, w1) ->
  OAuthGetCode env self (default OAUTH_TIMEOUT timeout)
    (default (useOfflineToken self) offlineToken)
    (default (usePopupRedirect self) popupRedirect) w1 = (Ok OAuthCode, w2) ->
  truthy OAuthCode = true \/ default (usePopupRedirect self) popupRedirect = true ->
  exchange_endpoint env (redirectURI self) OAuthCode = Throw reason ->
  let run := OAuth env self timeout offlineToken popupRedirect w in
  (exists text,
     fst run = Throw (Error text (Some reason)) /\
     String.prefix "Error converting the OAuth Code to an OAuth Token." text = true) /\
  auth (snd run) = auth w2 /\
  tokenStorage (snd run) = tokenStorage w2 /\
  sessionStorage (snd run) = sessionStorage w2 /\
  trace (snd run) = (trace w2 ++ [getAccessTokenFromCode (redirectURI self) OAuthCode])%list.
Proof.
  intros Hcheck Hcode Hgo Hexchange run. subst run.
  rewrite (OAuth_after_code _ _ _ _ _ _ _ _ _ Hcheck Hcode Hgo).
  destruct (catchCallback_message "Error converting the OAuth Code to an OAuth Token." reason)
    as (text & Hcb & Hprefix & _).
  unfold OAuthGetTokenInfo. unfold_monad. simpl. rewrite Hexchange. simpl. rewrite Hcb.
  simpl. repeat split; try reflexivity. exists text. split; [reflexivity | exact Hprefix].
Qed.

Lemma OAuth_exchange_rejected_witness :
  let session : gmap string string :=
    <["OAuthState-demo" := "uuid-0"]> (<["CodeVerifier-demo" := "verifier-1"]> ∅) in
  let env := Edge.with_exchange (Throw (OtherReason "network down")) Edge.returned in
  let run := OAuth env Sample.self None None (Some false) (Sample.world None session) in
  accessToken (auth (snd run)) = None /\ tokenStorage (snd run) = Some None.
Proof.
  intros session env run.
  destruct (OAuth_exchange_rejected env Sample.self None None (Some false)
              (Sample.world None session) _ _ (Some "ABC") (OtherReason "network down")
              eq_refl eq_refl (or_introl eq_refl) eq_refl)
    as (_ & Hauth & Hts & _).
  subst run. rewrite Hauth, Hts. split; reflexivity.
Defined.

(** ** Chunks and the single-request path *)

Lemma for_in_append_rejected (env : Env) (session : string) (reason : Reason) (k : nat) :
  forall (n start : nat) (w : World),
    (k < n)%nat ->
    (forall i, (start <= i < start + k)%nat ->
       sessionAppend_endpoint env (Z.of_nat i * CHUNK_SIZE) = Ok tt) ->
    sessionAppend_endpoint env (Z.of_nat (start + k) * CHUNK_SIZE) = Throw reason ->
    for_in (fun chunkIdx chunk =>
              let offset := Z.of_nat chunkIdx * CHUNK_SIZE in
              effect (log (filesUploadSessionAppendV2 session offset
                             (fst chunk) (snd chunk))) ;;;
              answer (sessionAppend_endpoint env offset))
           start
           (map (fun chunkIdx : nat =>
                   (Z.of_nat chunkIdx * CHUNK_SIZE, (Z.of_nat chunkIdx + 1) * CHUNK_SIZE))
                (seq start n)) w
    = (Throw reason, logs (map (append_call session) (seq start (S k))) w).
Proof.
  induction k as [|k IH]; intros n start w Hlt Hok Hrej;
    (destruct n as [|n]; [lia|]); cbn [seq map for_in].
  - unfold bind at 1. unfold bind at 1. unfold effect at 1. unfold answer at 1.
    rewrite Nat.add_0_r in Hrej. rewrite Hrej. unfold logs, log. simpl. reflexivity.
  - unfold bind at 1. unfold bind at 1. unfold effect at 1. unfold answer at 1.
    rewrite (Hok start ltac:(lia)).
    rewrite (IH n (S start)); [| lia | intros i Hi; apply Hok; lia
                               | now replace (S start + k)%nat with (start + S k)%nat by lia].
    now rewrite logs_log.
Qed.

(** X13. Session-start answers with a handle, the appends of the chunks
    before index [k] are accepted and the append of chunk [k] is rejected.
    Then the chunked upload throws that rejection as it is; it has made
    session-start and the appends of chunks [0 .. k], in order, and
    nothing after: no further append and no finish. *)
Theorem uploadLargeFile_append_rejected (env : Env) (file : File) (session : string)
    (k : nat) (reason : Reason) (w : World) :
  sessionStart_endpoint env = Ok session ->
  (k < Z.to_nat (Math_ceil_div (size file) CHUNK_SIZE))%nat ->
  (forall i, (i < k)%nat -> sessionAppend_endpoint env (Z.of_nat i * CHUNK_SIZE) = Ok tt) ->
  sessionAppend_endpoint env (Z.of_nat k * CHUNK_SIZE) = Throw reason ->
  let run := uploadLargeFile env file w in
  fst run = Throw reason /\
  trace (snd run) =
    (trace w ++ filesUploadSessionStart :: map (append_call session) (seq 0 (S k)))%list.
Proof.
  intros Hstart Hk Hok Hrej run.
  assert (Hrun : run = (Throw reason,
                        logs (map (append_call session) (seq 0 (S k)))
                          (log filesUploadSessionStart w))).
  { subst run. unfold uploadLargeFile, fileChunks.
    unfold bind at 1. unfold bind at 1. unfold effect at 1. unfold answer at 1.
    rewrite Hstart. unfold bind at 1.
    now rewrite (for_in_append_rejected env session reason k);
      [| exact Hk | intros i Hi; apply Hok; lia | exact Hrej]. }
  rewrite Hrun. unfold logs, log. cbn [fst snd trace]. split; [reflexivity|].
  now rewrite <- app_assoc.
Qed.

Lemma uploadLargeFile_append_rejected_witness :
  let env := Edge.with_uploads (Ok JNull) (Ok "session-1")
               (fun offset => if offset =? 12582912 then Throw (OtherReason "network down")
                              else Ok tt)
               (Ok JNull) Edge.base in
  trace (snd (uploadLargeFile env {| name := "a.bin"; size := 30000000 |}
                (Sample.world None ∅)))
  = [filesUploadSessionStart;
     filesUploadSessionAppendV2 "session-1" 0 0 12582912;
     filesUploadSessionAppendV2 "session-1" 12582912 12582912 25165824].
Proof.
  intros env.
  destruct (uploadLargeFile_append_rejected env {| name := "a.bin"; size := 30000000 |}
              "session-1" 1 (OtherReason "network down") (Sample.world None ∅)
              eq_refl ltac:(vm_compute; lia)
              ltac:(intros i Hi; assert (i = 0%nat) as -> by lia; reflexivity) eq_refl)
    as (_ & Htrace).
  rewrite Htrace. reflexivity.
Defined.

Lemma slice_sizes_sum (file : File) (k : nat) :
  0 <= size file ->
  fold_right Z.add 0
    (map (slice_size file)
       (map (fun chunkIdx : nat =>
               (Z.of_nat chunkIdx * CHUNK_SIZE, (Z.of_nat chunkIdx + 1) * CHUNK_SIZE))
            (seq 0 k)))
  = Z.min (Z.of_nat k * CHUNK_SIZE) (size file).
Proof.
  intros Hsize. induction k as [|k IH].
  - simpl. lia.
  - rewrite seq_S, !map_app, fold_right_app. cbn [map fold_right Nat.add].
    assert (Hacc : forall (l : list Z) (a : Z),
               fold_right Z.add a l = fold_right Z.add 0 l + a).
    { induction l as [|x l IHl]; intros a; simpl; [lia | rewrite IHl; lia]. }
    rewrite Hacc, IH. unfold slice_size, CHUNK_SIZE. cbn [fst snd]. lia.
Qed.

(** X14. The chunks of a file are the slices [[i * C, (i+1) * C)] for the
    indices below [ceil(S / C)], in order, so each starts where the one
    before ends; each holds at least one byte and at most [C] bytes of the
    file, and together they hold its [S] bytes. *)
Theorem fileChunks_cover_file (file : File) :
  0 <= size file ->
  let chunks := fileChunks file in
  fold_right Z.add 0 (map (slice_size file) chunks) = size file /\
  (forall i chunk, nth_error chunks i = Some chunk ->
     fst chunk = Z.of_nat i * CHUNK_SIZE /\
     snd chunk = fst chunk + CHUNK_SIZE /\
     0 < slice_size file chunk <= CHUNK_SIZE) /\
  Z.of_nat (length chunks) = Math_ceil_div (size file) CHUNK_SIZE.
Proof.
  intros Hsize chunks. subst chunks. unfold fileChunks.
  destruct (Math_ceil_div_spec (size file) Hsize) as [Hn Hceil].
  set (n := Z.to_nat (Math_ceil_div (size file) CHUNK_SIZE)).
  assert (Hnn : Z.of_nat n = Math_ceil_div (size file) CHUNK_SIZE)
    by (subst n; now rewrite Z2Nat.id).
  rewrite <- Hnn in Hceil. split; [|split].
  - rewrite slice_sizes_sum by exact Hsize. lia.
  - intros i chunk Hnth. rewrite nth_error_map, nth_error_seq in Hnth.
    destruct (Nat.ltb_spec i n) as [Hi|Hi]; [|discriminate].
    simpl in Hnth. inversion Hnth. subst chunk. unfold slice_size. cbn [fst snd].
    unfold CHUNK_SIZE in *. lia.
  - now rewrite length_map, length_seq.
Qed.

Lemma fileChunks_cover_file_witness :
  fold_right Z.add 0
    (map (slice_size {| name := "a.bin"; size := 30000000 |})
       (fileChunks {| name := "a.bin"; size := 30000000 |})) = 30000000.
Proof.
  exact (proj1 (fileChunks_cover_file {| name := "a.bin"; size := 30000000 |}
                  ltac:(simpl; lia))).
Defined.

Lemma last_char_slash (dir : string) : last_char (dir ++ "/") = Some "/"%char.
Proof.
  induction dir as [|c dir IH]; [reflexivity|].
  change (last_char (String c (dir ++ "/")) = Some "/"%char).
  cbn [last_char]. destruct (dir ++ "/")%string eqn:Hrest.
  - destruct dir; discriminate.
  - exact IH.
Qed.

(** X15. The single-request path uploads to the directory followed by the
    file's name, with exactly one separator between them when the
    directory lacks its final one: the directory part of the path always
    ends with [/], a directory that ends with [/] is used as it is, and the
    empty directory gives [/name].  It makes that one call and returns what
    the endpoint answers. *)
Theorem uploadSmallFile_path (env : Env) (file : File) (dir : string) (w : World) :
  let normalized := if ends_with_slash dir then dir else (dir ++ "/")%string in
  let run := uploadSmallFile env file dir w in
  ends_with_slash normalized = true /\
  (ends_with_slash dir = true -> normalized = dir) /\
  (dir = "" -> normalized = "/") /\
  fst run = filesUpload_endpoint env (normalized ++ name file) /\
  trace (snd run) = (trace w ++ [filesUpload (normalized ++ name file) file])%list.
Proof.
  intros normalized run.
  assert (Hnorm : ends_with_slash normalized = true).
  { subst normalized. destruct (ends_with_slash dir) eqn:Hdir; [exact Hdir|].
    unfold ends_with_slash. now rewrite last_char_slash. }
  split; [exact Hnorm|].
  split; [subst normalized; now intros ->|].
  split; [subst normalized; now intros ->|].
  subst normalized run. unfold uploadSmallFile. unfold_monad.
  split; now destruct (filesUpload_endpoint env _).
Qed.

Lemma uploadSmallFile_path_witness :
  trace (snd (uploadSmallFile Edge.base {| name := "a.bin"; size := 10 |} "/docs"
                (Sample.world None ∅)))
  = [filesUpload "/docs/a.bin" {| name := "a.bin"; size := 10 |}].
Proof.
  destruct (uploadSmallFile_path Edge.base {| name := "a.bin"; size := 10 |} "/docs"
              (Sample.world None ∅)) as (_ & _ & _ & _ & Htrace).
  rewrite Htrace. reflexivity.
Defined.

(** ** Rejections met by the storage operations *)

Lemma catchCallback_wraps (context : string) (reason : Reason) :
  wraps context reason (catchCallback context reason).
Proof.
  destruct (catchCallback_message context reason) as (text & Hcb & Hprefix & Hplain).
  exists text. auto.
Qed.

(** Where the chunked upload stops when the append of chunk [k] is
    rejected. *)
Lemma uploadLargeFile_stops_at (env : Env) (file : File) (session : string)
    (k : nat) (reason : Reason) (w : World) :
  sessionStart_endpoint env = Ok session ->
  (k < Z.to_nat (Math_ceil_div (size file) CHUNK_SIZE))%nat ->
  (forall i, (i < k)%nat -> sessionAppend_endpoint env (Z.of_nat i * CHUNK_SIZE) = Ok tt) ->
  sessionAppend_endpoint env (Z.of_nat k * CHUNK_SIZE) = Throw reason ->
  uploadLargeFile env file w =
    (Throw reason,
     logs (map (append_call session) (seq 0 (S k))) (log filesUploadSessionStart w)).
Proof.
  intros Hstart Hk Hok Hrej. unfold uploadLargeFile, fileChunks.
  unfold bind at 1. unfold bind at 1. unfold effect at 1. unfold answer at 1.
  rewrite Hstart. unfold bind at 1.
  now rewrite (for_in_append_rejected env session reason k);
    [| exact Hk | intros i Hi; apply Hok; lia | exact Hrej].
Qed.

(** X16. Once [OAuth] has returned, a rejection of the call a storage
    operation makes leaves the operation as the [Error] that [catchCallback]
    builds for it: its cause is that rejection, and its message starts with
    the operation's context (and is the context when the rejection is not a
    [DropboxResponseError]).  This holds for the listing, the download, the
    single-request upload and, on the chunked path, the rejected append of
    any chunk, after which nothing more is called.  The context of an
    upload reads [Error uploading file [object File].], whatever the
    file. *)
Theorem storage_rejections_are_wrapped (env : Env) (self : Self) (timeout : option Z)
    (w w1 : World) (reason : Reason) :
  OAuth env self timeout None None w = (Ok tt, w1) ->
  (forall path,
     filesListFolder_endpoint env path = Throw reason ->
     exists r,
       fst (fetchFileList env self path timeout w) = Throw r /\
       wraps ("Error fetching file list from " ++ path ++ ".") reason r /\
       trace (snd (fetchFileList env self path timeout w))
         = (trace w1 ++ [filesListFolder path])%list) /\
  (forall path,
     filesDownload_endpoint env path = Throw reason ->
     exists r,
       fst (downloadFile env self path timeout w) = Throw r /\
       wraps ("Error downloading file from " ++ path ++ ".") reason r /\
       trace (snd (downloadFile env self path timeout w))
         = (trace w1 ++ [filesDownload path])%list) /\
  (forall file,
     size file < FILE_SIZE_LIMIT ->
     filesUpload_endpoint env ("/" ++ name file) = Throw reason ->
     exists r,
       fst (uploadFile env self file timeout w) = Throw r /\
       wraps "Error uploading file [object File]." reason r /\
       trace (snd (uploadFile env self file timeout w))
         = (trace w1 ++ [filesUpload ("/" ++ name file) file])%list) /\
  (forall file session k,
     FILE_SIZE_LIMIT <= size file ->
     sessionStart_endpoint env = Ok session ->
     (k < Z.to_nat (Math_ceil_div (size file) CHUNK_SIZE))%nat ->
     (forall i, (i < k)%nat ->
        sessionAppend_endpoint env (Z.of_nat i * CHUNK_SIZE) = Ok tt) ->
     sessionAppend_endpoint env (Z.of_nat k * CHUNK_SIZE) = Throw reason ->
     exists r,
       fst (uploadFile env self file timeout w) = Throw r /\
       wraps "Error uploading file [object File]." reason r /\
       trace (snd (uploadFile env self file timeout w))
         = (trace w1 ++ filesUploadSessionStart
              :: map (append_call session) (seq 0 (S k)))%list).
Proof.
  intros Hauth. split; [|split; [|split]].
  - intros path Hrej.
    assert (Hrun : fetchFileList env self path timeout w =
              (Throw (catchCallback ("Error fetching file list from " ++ path ++ ".") reason),
               log (filesListFolder path) w1)).
    { unfold fetchFileList. unfold bind at 1. rewrite Hauth.
      unfold_monad. simpl. now rewrite Hrej. }
    rewrite Hrun. eexists. split; [reflexivity|].
    split; [apply catchCallback_wraps | reflexivity].
  - intros path Hrej.
    assert (Hrun : downloadFile env self path timeout w =
              (Throw (catchCallback ("Error downloading file from " ++ path ++ ".") reason),
               log (filesDownload path) w1)).
    { unfold downloadFile. unfold bind at 1. rewrite Hauth.
      unfold_monad. simpl. now rewrite Hrej. }
    rewrite Hrun. eexists. split; [reflexivity|].
    split; [apply catchCallback_wraps | reflexivity].
  - intros file Hsmall Hrej.
    assert (Hrun : uploadFile env self file timeout w =
              (Throw (catchCallback "Error uploading file [object File]." reason),
               log (filesUpload ("/" ++ name file) file) w1)).
    { rewrite (uploadFile_dispatch _ _ _ _ _ _ Hauth).
      apply Z.ltb_lt in Hsmall. rewrite Hsmall.
      unfold uploadSmallFile. unfold_monad. simpl. now rewrite Hrej. }
    rewrite Hrun. eexists. split; [reflexivity|].
    split; [apply catchCallback_wraps | reflexivity].
  - intros file session k Hlarge Hstart Hk Hok Hrej.
    assert (Hrun : uploadFile env self file timeout w =
              (Throw (catchCallback "Error uploading file [object File]." reason),
               logs (map (append_call session) (seq 0 (S k)))
                 (log filesUploadSessionStart w1))).
    { rewrite (uploadFile_dispatch _ _ _ _ _ _ Hauth).
      apply Z.ltb_ge in Hlarge. rewrite Hlarge.
      unfold catch, rethrow, throw.
      now rewrite (uploadLargeFile_stops_at env file session k reason w1 Hstart Hk Hok Hrej). }
    rewrite Hrun. eexists. split; [reflexivity|].
    split; [apply catchCallback_wraps|].
    unfold logs, log. cbn [fst snd trace]. now rewrite <- app_assoc.
Qed.

Lemma storage_rejections_are_wrapped_witness :
  let env := Edge.with_uploads (Throw (OtherReason "network down")) (Ok "session-1")
               (fun _ => Ok tt) (Ok JNull)
               (Sample.env (Ok None) Sample.echo Sample.blank_url []) in
  exists r,
    fst (uploadFile env Sample.self {| name := "a.bin"; size := 10 |} None
           (Sample.world None ∅)) = Throw r /\
    wraps "Error uploading file [object File]." (OtherReason "network down") r.
Proof.
  intros env.
  destruct (storage_rejections_are_wrapped env Sample.self None (Sample.world None ∅) _
              (OtherReason "network down") eq_refl) as (_ & _ & Hsmall & _).
  destruct (Hsmall {| name := "a.bin"; size := 10 |} ltac:(vm_compute; reflexivity) eq_refl)
    as (r & Hres & Hwraps & _).
  exists r. split; assumption.
Defined.

(** X17. No storage call is made before [OAuth] has returned: when [OAuth]
    throws or never settles, [fetchFileList], [downloadFile] and
    [uploadFile] end in the same way and in the same state; when it
    returns, listing and download make exactly one call after it, for the
    path given, and return what the endpoint answers. *)
Theorem storage_operations_wait_for_OAuth (env : Env) (self : Self)
    (timeout : option Z) (path : string) (file : File) (w : World) :
  match OAuth env self timeout None None w with
  | (Ok _, w1) =>
      trace (snd (fetchFileList env self path timeout w))
        = (trace w1 ++ [filesListFolder path])%list /\
      trace (snd (downloadFile env self path timeout w))
        = (trace w1 ++ [filesDownload path])%list /\
      (forall result, filesListFolder_endpoint env path = Ok result ->
         fst (fetchFileList env self path timeout w) = Ok result) /\
      (forall result, filesDownload_endpoint env path = Ok result ->
         fst (downloadFile env self path timeout w) = Ok result)
  | (Throw reason, w1) =>
      fetchFileList env self path timeout w = (Throw reason, w1) /\
      downloadFile env self path timeout w = (Throw reason, w1) /\
      uploadFile env self file timeout w = (Throw reason, w1)
  | (Hang, w1) =>
      fetchFileList env self path timeout w = (Hang, w1) /\
      downloadFile env self path timeout w = (Hang, w1) /\
      uploadFile env self file timeout w = (Hang, w1)
  end.
Proof.
  assert (Hlist : fetchFileList env self path timeout w =
            bind (OAuth env self timeout None None)
              (fun _ => catch (effect (log (filesListFolder path)) ;;;
                               answer (filesListFolder_endpoint env path))
                          (rethrow ("Error fetching file list from " ++ path ++ "."))) w)
    by reflexivity.
  assert (Hdown : downloadFile env self path timeout w =
            bind (OAuth env self timeout None None)
              (fun _ => catch (effect (log (filesDownload path)) ;;;
                               answer (filesDownload_endpoint env path))
                          (rethrow ("Error downloading file from " ++ path ++ "."))) w)
    by reflexivity.
  assert (Hup : uploadFile env self file timeout w =
            bind (OAuth env self timeout None None)
              (fun _ => catch (if size file <? FILE_SIZE_LIMIT
                               then uploadSmallFile env file "/"
                               else uploadLargeFile env file)
                          (rethrow "Error uploading file [object File].")) w)
    by reflexivity.
  unfold bind at 1 in Hlist. unfold bind at 1 in Hdown. unfold bind at 1 in Hup.
  destruct (OAuth env self timeout None None w) as [[[]|reason|] w1];
    [|now rewrite Hlist, Hdown, Hup|now rewrite Hlist, Hdown, Hup].
  rewrite Hlist, Hdown. unfold_monad. simpl.
  repeat split.
  - now destruct (filesListFolder_endpoint env path).
  - now destruct (filesDownload_endpoint env path).
  - intros result ->. reflexivity.
  - intros result ->. reflexivity.
Qed.

Lemma storage_operations_wait_for_OAuth_witness :
  let env := Sample.env (Throw (OtherReason "network down")) Sample.echo Sample.blank_url [] in
  trace (snd (fetchFileList env Sample.self "/docs" None (Sample.world (Some "rt-0") ∅)))
  = [checkAndRefreshAccessToken].
Proof.
  intros env.
  pose proof (storage_operations_wait_for_OAuth env Sample.self None "/docs"
                {| name := "a.bin"; size := 10 |} (Sample.world (Some "rt-0") ∅)) as Hwait.
  cbv beta iota zeta in Hwait.
  change (OAuth env Sample.self None None None (Sample.world (Some "rt-0") ∅))
    with (@Throw unit (Error "Error refreshing token!" (Some (OtherReason "network down"))),
          log checkAndRefreshAccessToken (Sample.world (Some "rt-0") ∅)) in Hwait.
  destruct Hwait as (Hlist & _). rewrite Hlist. reflexivity.
Defined.

(** ** The earlier revision *)

(** X18. In the earlier revision a rejected refresh, [invalid_grant]
    included, leaves [OAuth] as it is: it is neither wrapped nor recovered,
    the refresh token stays in memory and in the storage, and the refresh
    is the only call made. *)
Theorem legacy_OAuth_refresh_rejection_propagates (env : Env) (self : Self)
    (timeout : option Z) (reason : Reason) (w : World) :
  truthy (refreshToken (auth w)) = true ->
  refresh_endpoint env = Throw reason ->
  let run := Esm.OAuth env self timeout w in
  fst run = Throw reason /\
  auth (snd run) = auth w /\
  tokenStorage (snd run) = tokenStorage w /\
  trace (snd run) = (trace w ++ [checkAndRefreshAccessToken])%list.
Proof.
  intros Hheld Hrej run. subst run.
  unfold Esm.OAuth, Esm.OAuthRefreshedToken, dbx_checkAndRefreshAccessToken.
  unfold_monad. rewrite Hheld. simpl. rewrite Hrej. simpl. repeat split; reflexivity.
Qed.

Lemma legacy_OAuth_refresh_rejection_propagates_witness :
  let run := Esm.OAuth (Sample.env (Throw Sample.invalid_grant) Sample.echo Sample.blank_url [])
               Sample.self None (Sample.world (Some "rt-0") ∅) in
  fst run = Throw Sample.invalid_grant /\ refreshToken (auth (snd run)) = Some "rt-0".
Proof.
  intros run.
  destruct (legacy_OAuth_refresh_rejection_propagates
              (Sample.env (Throw Sample.invalid_grant) Sample.echo Sample.blank_url [])
              Sample.self None Sample.invalid_grant (Sample.world (Some "rt-0") ∅)
              eq_refl eq_refl) as (Hres & Hauth & _).
  subst run. rewrite Hres, Hauth. split; reflexivity.
Defined.

(** ** Further edges *)

(** X19. On a return page whose URL carries a matching [state] and an empty
    [code], with the navigation channel chosen, [OAuth] takes the empty
    code for a navigation in progress: it returns without error, makes no
    call after the liveness check (no exchange, no navigation), and leaves
    the tokens and the injected storage untouched. *)
Theorem OAuth_empty_code_on_return (env : Env) (self : Self)
    (timeout : option Z) (offlineToken popupRedirect : option bool)
    (w w1 : World) (OAuthState : string) (fields : list (string * JSON)) :
  OAuthCheckToken env w = (Ok false, w1) ->
  default (usePopupRedirect self) popupRedirect = false ->
  searchParams_get "code" (searchParams (location env)) = Some "" ->
  searchParams_has "state" (searchParams (location env)) = true ->
  JSON_parse env (template "null" (searchParams_get "state" (searchParams (location env))))
    = Some (JObj fields) ->
  sessionStorage w1 !! storage_key self "OAuthState" = Some OAuthState ->
  own_property "state" fields = Some (JStr OAuthState) ->
  let run := OAuth env self timeout offlineToken popupRedirect w in
  fst run = Ok tt /\
  trace (snd run) = trace w1 /\
  accessToken (auth (snd run)) = accessToken (auth w1) /\
  refreshToken (auth (snd run)) = refreshToken (auth w1) /\
  tokenStorage (snd run) = tokenStorage w1.
Proof.
  intros Hcheck Hnav Hcode Hstate Hparse Hst Hown run.
  assert (Hhas : searchParams_has "code" (searchParams (location env)) = true)
    by (unfold searchParams_has; now rewrite Hcode).
  destruct (navigation_return_outcome env self (default OAUTH_TIMEOUT timeout)
              (default (useOfflineToken self) offlineToken) false w1 fields
              Hhas Hstate Hparse) as (w2 & Hget & _ & Hat & Hrt & Hts & _ & _ & Htrace).
  rewrite Hst, Hown, Hcode in Hget.
  assert (Heq : strict_equal (Some OAuthState) (Some (JStr OAuthState)) = true)
    by (now apply strict_equal_spec).
  rewrite Heq in Hget.
  assert (Hrun : run = (Ok tt, w2)).
  { subst run. unfold OAuth. unfold bind at 1. rewrite Hcheck, Hnav.
    unfold bind at 1. unfold catch at 1. rewrite Hget. reflexivity. }
  rewrite Hrun. simpl. auto.
Qed.

Lemma OAuth_empty_code_on_return_witness :
  let session : gmap string string :=
    <["OAuthState-demo" := "uuid-0"]> (<["CodeVerifier-demo" := "verifier-1"]> ∅) in
  let run := OAuth EdgeReturn.empty_code_env Sample.self None None (Some false)
               (Sample.world None session) in
  fst run = Ok tt /\ trace (snd run) = [checkUser "uuid-0"].
Proof.
  intros session run.
  destruct (OAuth_empty_code_on_return EdgeReturn.empty_code_env Sample.self None None
              (Some false) (Sample.world None session) _ "uuid-0"
              [("state", JStr "uuid-0"); ("appId", JStr "demo")]
              eq_refl eq_refl eq_refl eq_refl eq_refl eq_refl eq_refl)
    as (Hres & Htrace & _).
  subst run. rewrite Hres, Htrace. split; reflexivity.
Defined.

(** X20. The popup channel always settles: whatever messages arrive and
    whether or not a popup can be opened, [#OAuthPopupRedirect] returns a
    code or throws, because the timer ends the wait. *)
Theorem OAuthPopupRedirect_settles (env : Env) (self : Self)
    (OAuthState OAuthURL : string) (timeout : Z) (w : World) :
  microtasks (page w) = [] ->
  fst (OAuthPopupRedirect env self OAuthState OAuthURL timeout w) <> Hang.
Proof.
  intros Hmicro. destruct (window_open_ok env) eqn:Hopen.
  - destruct (OAuthPopupRedirect_waits env self OAuthState OAuthURL timeout w Hopen)
      as (w0 & Hrun & Hp & Hr & Hm & Hl & Ht & _).
    rewrite Hrun.
    apply (await_OAuthPromise_settles env OAuthState timeout
             (count_calls is_popup_close w0) (count_calls is_removeEventListener w0)).
    + unfold attempt_invariant. rewrite Hp. repeat split; congruence.
    + right. unfold popup_events. apply in_or_app. right. now left.
  - unfold OAuthPopupRedirect. rewrite Hopen. unfold_monad. discriminate.
Qed.

Lemma OAuthPopupRedirect_settles_witness :
  fst (OAuthPopupRedirect
         (Sample.env (Ok None) Sample.echo Sample.blank_url
            [{| OAuthRedirect := Some "not a url"; from_popup := true |}])
         Sample.self "uuid-0" "https://www.dropbox.com/oauth2/authorize" 120
         (Sample.world None ∅)) <> Hang.
Proof.
  exact (OAuthPopupRedirect_settles
           (Sample.env (Ok None) Sample.echo Sample.blank_url
              [{| OAuthRedirect := Some "not a url"; from_popup := true |}])
           Sample.self "uuid-0" "https://www.dropbox.com/oauth2/authorize" 120
           (Sample.world None ∅) eq_refl).
Defined.
